(** * serve.py: versioned-file selection and the watch/serve coordination

    A shallow embedding of [src/serve.py].  File names are strings over the
    code points 0..255 ([string] of [ascii]); on that range the Unicode
    category Nd, which Python's [\d] and [int] use, is exactly ['0'..'9'].
    What the operating system answers ([os.listdir], [os.path.exists],
    [os.path.getmtime]) is an explicit argument of every function that asks. *)

From Stdlib Require Import ZArith Lia Ascii String.
From stdpp Require Import base option list relations strings pretty.

Open Scope Z_scope.

(** ** Configuration (serve.py, lines 10-13) *)

Definition PORT : Z := 8000.
Definition FILE_PREFIX : string := "index".
Definition FILE_SUFFIX : string := ".html".
Definition CHECK_INTERVAL : Z := 5.

(** ** Python exceptions and results *)

Inductive exn : Type :=
| ValueError
| OSError
| TypeError
| KeyboardInterrupt
| SystemExit (code : Z).     (* sys.exit(code) *)

Inductive result (A : Type) : Type :=
| Ok (a : A)
| Raise (e : exn).
Arguments Ok {A} a.
Arguments Raise {A} e.

#[global] Instance exn_eq_dec : EqDecision exn.
Proof. solve_decision. Defined.

(** ** The regular expression of line 25

    [re.escape] leaves "index" as it is and turns ".html" into [\.html], so
    the compiled pattern is [^index(\d+)\.html$].  [pattern.match] anchors at
    the start; [\d+] is greedy, and since the character after the group must
    be ".", which is no digit, the only run that can succeed is the longest
    one.  Without [re.MULTILINE], [$] matches at the very end of the string
    and also just before a line feed that is the last character. *)

Module Regex.

Definition newline : ascii := ascii_of_nat 10.

(** [\d] on code points below 256. *)
Definition is_digit (c : ascii) : bool :=
  let n := N_of_ascii c in ((48 <=? n) && (n <=? 57))%N.

(** A literal piece of the pattern at the current position: the rest of
    the subject when it is there. *)
Fixpoint literal (p s : string) : option string :=
  match p with
  | EmptyString => Some s
  | String a p' =>
      match s with
      | String b s' => if Ascii.eqb a b then literal p' s' else None
      | EmptyString => None
      end
  end.

(** The longest run of digits at the current position, and what follows. *)
Fixpoint digits_run (s : string) : string * string :=
  match s with
  | String c s' =>
      if is_digit c
      then let (d, r) := digits_run s' in (String c d, r)
      else (EmptyString, s)
  | EmptyString => (EmptyString, EmptyString)
  end.

(** [$]: the end of the subject, or a final line feed. *)
Definition at_dollar (s : string) : bool :=
  match s with
  | EmptyString => true
  | String c EmptyString => Ascii.eqb c newline
  | _ => false
  end.

(** [pattern.match(filename)]: [match.group(1)] when the pattern matches. *)
Definition pattern_match (filename : string) : option string :=
  match literal FILE_PREFIX filename with
  | None => None
  | Some rest =>
      let (group1, rest') := digits_run rest in
      if String.eqb group1 EmptyString then None
      else match literal FILE_SUFFIX rest' with
           | None => None
           | Some tail => if at_dollar tail then Some group1 else None
           end
  end.

Fixpoint all_digits (s : string) : Prop :=
  match s with
  | EmptyString => True
  | String c s' => is_digit c = true /\ all_digits s'
  end.

(** The language of the pattern, stated on the subject as a whole. *)
Definition accepts (filename group1 : string) : Prop :=
  exists tail,
    filename = FILE_PREFIX +:+ group1 +:+ FILE_SUFFIX +:+ tail
    /\ group1 <> EmptyString
    /\ all_digits group1
    /\ (tail = EmptyString \/ tail = String newline EmptyString).

End Regex.

(** ** [int] on the captured group (line 32)

    [None] is [ValueError].  Decimal digits only: this refuses every string
    the real [int] refuses (and some it takes, such as signed or padded
    ones), so a success here is a success of [int].  Leading zeros are
    allowed, as in Python.  CPython refuses by default to convert more than
    4300 digits; a directory entry's name is far shorter (255 bytes on the
    usual file systems), and that limit is left out. *)

Definition digit_value (c : ascii) : Z := Z.of_N (N_of_ascii c) - 48.

Fixpoint int_digits (acc : Z) (s : string) : option Z :=
  match s with
  | EmptyString => Some acc
  | String c s' =>
      if Regex.is_digit c then int_digits (10 * acc + digit_value c) s'
      else None
  end.

Definition py_int (s : string) : option Z :=
  match s with
  | EmptyString => None
  | _ => int_digits 0 s
  end.

(** ** find_highest_version_file (lines 16-40)

    The argument is what [os.listdir(".")] returned; a raising [os.listdir]
    is handled where the function is called. *)

(** One turn of the [for] loop on the pair (max_num, target_filename). *)
Definition scan_entry (acc : Z * option string) (filename : string)
  : Z * option string :=
  let '(max_num, target_filename) := acc in
  match Regex.pattern_match filename with
  | Some group1 =>
      match py_int group1 with
      | Some num =>
          if num >? max_num then (num, Some filename)
          else (max_num, target_filename)
      | None => (max_num, target_filename)   (* except ValueError: continue *)
      end
  | None => (max_num, target_filename)
  end.

Definition find_highest_version_file (listing : list string) : option string :=
  snd (fold_left scan_entry listing (-1, None)).

(** The number the loop reads off a name, if it reads one. *)
Definition version (filename : string) : option Z :=
  match Regex.pattern_match filename with
  | Some group1 => py_int group1
  | None => None
  end.

(** The naming pattern as the specification words it, to compare with the
    compiled one: the prefix, one or more digits, the suffix, and nothing
    else. *)
Definition spec_exact_pattern (filename : string) : Prop :=
  exists digits,
    filename = FILE_PREFIX +:+ digits +:+ FILE_SUFFIX
    /\ digits <> EmptyString
    /\ Regex.all_digits digits.

(** ** What the operating system answers

    One record per moment the program looks: the three calls the program
    makes, each with the answer it gets.  The directory belongs to other
    processes too and can change between two calls, so the fields are not
    assumed to agree with each other.  Timestamps are only ever compared for
    equality ([os.stat] yields no NaN), so an integer stands for one. *)

Definition mtime : Type := Z.

Record OS : Type := {
  listdir : result (list string);        (* os.listdir(".") *)
  path_exists : string -> bool;          (* os.path.exists(p), p a str *)
  getmtime : string -> result mtime      (* os.path.getmtime(p), p a str *)
}.

(** ** The class attributes of CustomHTTPRequestHandler (lines 48-49) *)

Record Handler : Type := {
  target_file : option string;
  current_file_mtime : mtime
}.

Definition class_body : Handler :=
  {| target_file := None; current_file_mtime := 0 |}.

#[global] Instance Handler_eq_dec : EqDecision Handler.
Proof. solve_decision. Defined.

(** ** Observable effects *)

Inductive effect : Type :=
| Print (line : string)
| SendError (code : Z) (message : string)   (* self.send_error *)
| SuperGET (path : option string)           (* super().do_GET() with self.path *)
| ThreadStart                               (* update_thread.start() *)
| ServerBind (port : Z)                     (* socketserver.TCPServer(("", PORT), ...) *)
| ServeForever                              (* httpd.serve_forever() is entered *)
| ServerClose.                              (* the with block of line 108 is left *)

(** ** A state, exception and output monad

    A raise keeps the state as the statements before it left it, and the
    lines printed so far. *)

Definition M (S A : Type) : Type := S -> result A * S * list effect.

Definition ret {S A} (a : A) : M S A := fun s => (Ok a, s, []).

Definition bind {S A B} (m : M S A) (k : A -> M S B) : M S B :=
  fun s =>
    match m s with
    | (Ok a, s', out) =>
        match k a s' with
        | (r, s'', out') => (r, s'', out ++ out')
        end
    | (Raise e, s', out) => (Raise e, s', out)
    end.

Definition raise {S A} (e : exn) : M S A := fun s => (Raise e, s, []).
Definition get {S} : M S S := fun s => (Ok s, s, []).
Definition put {S} (s : S) : M S unit := fun _ => (Ok tt, s, []).
Definition emit {S} (ev : effect) : M S unit := fun s => (Ok tt, s, [ev]).
Definition lift {S A} (r : result A) : M S A := fun s => (r, s, []).

Declare Scope py_scope.
Delimit Scope py_scope with py.
Notation "x <- m ;; k" := (bind m (fun x => k))
  (at level 100, m at next level, right associativity) : py_scope.
Notation "m ;;; k" := (bind m (fun _ => k))
  (at level 100, right associativity) : py_scope.
Open Scope py_scope.

(** ** Python values at the places the program uses them *)

(** [if x:] on a value that is [None] or a str. *)
Definition truthy (x : option string) : bool :=
  match x with
  | Some s => negb (String.eqb s EmptyString)
  | None => false
  end.

(** [{x}] in an f-string. *)
Definition fmt (x : option string) : string :=
  match x with
  | Some s => s
  | None => "None"
  end.

(** [os.stat] refuses [None] with a TypeError, which neither
    [os.path.exists] nor [os.path.getmtime] catches. *)
Definition os_path_exists {S} (os : OS) (p : option string) : M S bool :=
  match p with
  | Some f => ret (path_exists os f)
  | None => raise TypeError
  end.

Definition os_path_getmtime {S} (os : OS) (p : option string) : M S mtime :=
  match p with
  | Some f => lift (getmtime os f)
  | None => raise TypeError
  end.

(** ** check_for_updates (lines 67-88) *)

Definition set_target_file (v : option string) : M Handler unit :=
  cls <- get ;;
  put {| target_file := v; current_file_mtime := current_file_mtime cls |}.

Definition set_current_file_mtime (v : mtime) : M Handler unit :=
  cls <- get ;;
  put {| target_file := target_file cls; current_file_mtime := v |}.

(** The test of line 78. *)
Definition switch_test (new_file : option string) (cls : Handler) : bool :=
  truthy new_file && negb (bool_decide (new_file = target_file cls)).

(** The body of the [while] loop after [time.sleep(CHECK_INTERVAL)]: lines
    75-88.  Lines 78-88 run with the lock held. *)
Definition check_once (os : OS) : M Handler unit :=
  listing <- lift (listdir os) ;;
  let new_file := find_highest_version_file listing in
  cls <- get ;;
  if switch_test new_file cls then
    emit (Print ("New file detected: " +:+ fmt new_file +:+ ". Reloading...")) ;;;
    set_target_file new_file ;;;
    t <- os_path_getmtime os new_file ;;
    set_current_file_mtime t
  else
    still_there <- os_path_exists os (target_file cls) ;;
    if (still_there : bool) then
      current_mtime <- os_path_getmtime os (target_file cls) ;;
      if negb (current_mtime =? current_file_mtime cls) then
        emit (Print ("File " +:+ fmt (target_file cls)
                     +:+ " has been modified. Reloading...")) ;;;
        set_current_file_mtime current_mtime
      else ret tt
    else ret tt.

(** The loop.  It has no exit of its own; what can be run is a finite
    number of turns, one for each moment the watcher wakes up.  [Ok] means
    that the thread is asleep again after the last of them, [Raise] that an
    exception left the function and ended the thread. *)
Fixpoint check_for_updates (ticks : list OS) : M Handler unit :=
  match ticks with
  | [] => ret tt
  | os :: later => check_once os ;;; check_for_updates later
  end.

(** ** do_GET (lines 52-64)

    Attribute lookup on [self]: [self.path] is the instance's own,
    [self.target_file] falls through to the class. *)

Record Request : Type := {
  cls_of : Handler;           (* the class, as every instance sees it *)
  self_path : option string   (* self.path: a str, or whatever was assigned *)
}.

Definition super_do_GET : M Request unit :=
  self <- get ;;
  emit (SuperGET (self_path self)).

Definition do_GET (os : OS) : M Request unit :=
  self <- get ;;
  if bool_decide (self_path self = Some "/"%string) then
    (* with CustomHTTPRequestHandler.lock: *)
    still_there <- os_path_exists os (target_file (cls_of self)) ;;
    if (still_there : bool) then
      put {| cls_of := cls_of self; self_path := target_file (cls_of self) |} ;;;
      super_do_GET
    else
      emit (SendError 404 ("File Not Found: " +:+ fmt (target_file (cls_of self))))
  else
    super_do_GET.

(** One request as the server handles it: a fresh instance whose [path] is
    the request's, then [do_GET].  The class comes back as the handler left
    it. *)
Definition handle (os : OS) (path : string) (cls : Handler)
  : result unit * Handler * list effect :=
  match do_GET os {| cls_of := cls; self_path := Some path |} with
  | (r, self, out) => (r, cls_of self, out)
  end.

(** ** The main block (lines 91-115)

    [bound] is what constructing the TCPServer does (it binds and listens);
    [interrupt] is the exception that ends [serve_forever], if one does:
    the call does not return by itself. *)

Record Launch : Type := {
  at_startup : OS;
  bound : result unit;
  interrupt : option exn
}.

Inductive Running : Type := Serving.

Definition main (l : Launch) : M Handler Running :=
  listing <- lift (listdir (at_startup l)) ;;
  let file_to_serve := find_highest_version_file listing in
  if negb (truthy file_to_serve) then
    emit (Print ("Error: Could not find any files matching '" +:+ FILE_PREFIX
                 +:+ "*" +:+ FILE_SUFFIX +:+ "' in the current directory.")) ;;;
    raise (SystemExit 1)
  else
    set_target_file file_to_serve ;;;
    t <- os_path_getmtime (at_startup l) file_to_serve ;;
    set_current_file_mtime t ;;;
    emit ThreadStart ;;;
    emit (ServerBind PORT) ;;;
    lift (bound l) ;;;
    emit (Print ("Serving '" +:+ fmt file_to_serve
                 +:+ "' at http://localhost:" +:+ pretty PORT)) ;;;
    emit (Print "Press Ctrl+C to stop the server.") ;;;
    emit ServeForever ;;;
    match interrupt l with
    | None => ret Serving
    | Some KeyboardInterrupt =>
        emit (Print (String Regex.newline "Server stopped.")) ;;;
        emit ServerClose ;;;
        raise (SystemExit 0)
    | Some e =>
        emit ServerClose ;;;
        raise e
    end.

(** The status the process ends with when [SystemExit] reaches the top. *)
Definition exit_code {A} (r : result A) : option Z :=
  match r with
  | Raise (SystemExit code) => Some code
  | _ => None
  end.

(** ** The process after startup

    The locked region of a turn of the watcher and the locked region of a
    request exclude each other, so at this grain the process is a sequence
    of events, each seeing the operating system as it is at its moment.  An
    exception in a handler is the server's to report; one in the watcher
    ends the watcher's thread. *)

Inductive event : Type :=
| Tick (os : OS)                    (* the watcher wakes up *)
| GET (path : string) (os : OS).    (* a request arrives *)

Record Process : Type := {
  class_attrs : Handler;
  watcher_dead : option exn
}.

(** What one event did: its result and effects. *)
Definition outcome : Type := result unit * list effect.

Definition process_event (p : Process) (ev : event) : Process * outcome :=
  match ev with
  | Tick os =>
      match watcher_dead p with
      | Some e => (p, (Raise e, []))
      | None =>
          match check_once os (class_attrs p) with
          | (Ok _, cls, out) =>
              ({| class_attrs := cls; watcher_dead := None |}, (Ok tt, out))
          | (Raise e, cls, out) =>
              ({| class_attrs := cls; watcher_dead := Some e |}, (Raise e, out))
          end
      end
  | GET path os =>
      match handle os path (class_attrs p) with
      | (r, cls, out) =>
          ({| class_attrs := cls; watcher_dead := watcher_dead p |}, (r, out))
      end
  end.

Fixpoint process_events (p : Process) (evs : list event)
  : Process * list (event * outcome) :=
  match evs with
  | [] => (p, [])
  | ev :: later =>
      match process_event p ev with
      | (p', o) =>
          match process_events p' later with
          | (p'', os) => (p'', (ev, o) :: os)
          end
      end
  end.

(** ** One turn of the watcher among requests in flight

    The same statements at a finer grain: every thread stands at a line of
    serve.py and moves one statement at a time, and [threading.Lock] is a
    cell that holds its owner.  Leaving a [with] block, also by [return] or
    by an exception, releases the lock.  [socketserver.TCPServer] handles
    one request after the other; any number of handlers in flight covers
    that and a threaded server as well. *)

Inductive thread : Type :=
| Watcher
| Worker (i : nat).

#[global] Instance thread_eq_dec : EqDecision thread.
Proof. solve_decision. Defined.

(** Where the watcher stands, with its local variables. *)
Inductive wline : Type :=
| W75                                 (* new_file = find_highest_version_file() *)
| W77 (new_file : option string)      (* with lock: waiting to take it *)
| W78 (new_file : option string)      (* if new_file and new_file != target_file *)
| W79 (new_file : option string)      (* print *)
| W80 (new_file : option string)      (* target_file = new_file *)
| W81 (new_file : option string)      (* current_file_mtime = getmtime(new_file) *)
| W84                                 (* elif os.path.exists(target_file) *)
| W85                                 (* current_mtime = getmtime(target_file) *)
| W86 (current_mtime : mtime)         (* if current_mtime != current_file_mtime *)
| W87 (current_mtime : mtime)         (* print *)
| W88 (current_mtime : mtime)         (* current_file_mtime = current_mtime *)
| W89                                 (* the end of the with block *)
| W72                                 (* time.sleep: the turn is over *)
| WRaised (e : exn).                  (* an exception left the function *)

(** Where a request handler stands. *)
Inductive hline : Type :=
| H54                                 (* if self.path == '/' *)
| H56                                 (* with lock: waiting to take it *)
| H57                                 (* if os.path.exists(self.target_file) *)
| H58                                 (* self.path = self.target_file *)
| H60                                 (* self.send_error(404, ...) *)
| H61                                 (* return, out of the with block *)
| H62                                 (* the end of the with block *)
| H64                                 (* super().do_GET() *)
| HDone
| HRaised (e : exn).

(** A handler: its line, its [self.path], and, for the statements about it,
    the class attributes as they were each time it read the class. *)
Record worker : Type := {
  at_line : hline;
  path_attr : option string;
  seen : list Handler
}.

Record Threads : Type := {
  shared : Handler;
  lock : option thread;
  watcher : wline;
  workers : list worker;
  console : list (thread * effect)
}.

Definition goto (l : wline) (w : Threads) : Threads :=
  {| shared := shared w; lock := lock w; watcher := l;
     workers := workers w; console := console w |}.

Definition write_shared (cls : Handler) (w : Threads) : Threads :=
  {| shared := cls; lock := lock w; watcher := watcher w;
     workers := workers w; console := console w |}.

Definition set_lock (o : option thread) (w : Threads) : Threads :=
  {| shared := shared w; lock := o; watcher := watcher w;
     workers := workers w; console := console w |}.

Definition say (t : thread) (ev : effect) (w : Threads) : Threads :=
  {| shared := shared w; lock := lock w; watcher := watcher w;
     workers := workers w; console := console w ++ [(t, ev)] |}.

Definition set_worker (i : nat) (k : worker) (w : Threads) : Threads :=
  {| shared := shared w; lock := lock w; watcher := watcher w;
     workers := <[i := k]> (workers w); console := console w |}.

(** One statement of the watcher; [None] when it cannot move (the lock is
    taken, or the turn is over). *)
Definition watcher_step (os : OS) (w : Threads) : option Threads :=
  match watcher w with
  | W75 =>
      match listdir os with
      | Ok listing => Some (goto (W77 (find_highest_version_file listing)) w)
      | Raise e => Some (goto (WRaised e) w)
      end
  | W77 new_file =>
      match lock w with
      | None => Some (goto (W78 new_file) (set_lock (Some Watcher) w))
      | Some _ => None
      end
  | W78 new_file =>
      if switch_test new_file (shared w) then Some (goto (W79 new_file) w)
      else Some (goto W84 w)
  | W79 new_file =>
      Some (goto (W80 new_file)
              (say Watcher (Print ("New file detected: " +:+ fmt new_file
                                   +:+ ". Reloading...")) w))
  | W80 new_file =>
      Some (goto (W81 new_file)
              (write_shared {| target_file := new_file;
                               current_file_mtime := current_file_mtime (shared w) |} w))
  | W81 new_file =>
      match new_file with
      | None => Some (goto (WRaised TypeError) (set_lock None w))
      | Some f =>
          match getmtime os f with
          | Ok t =>
              Some (goto W89
                      (write_shared {| target_file := target_file (shared w);
                                       current_file_mtime := t |} w))
          | Raise e => Some (goto (WRaised e) (set_lock None w))
          end
      end
  | W84 =>
      match target_file (shared w) with
      | None => Some (goto (WRaised TypeError) (set_lock None w))
      | Some f =>
          if path_exists os f then Some (goto W85 w) else Some (goto W89 w)
      end
  | W85 =>
      match target_file (shared w) with
      | None => Some (goto (WRaised TypeError) (set_lock None w))
      | Some f =>
          match getmtime os f with
          | Ok t => Some (goto (W86 t) w)
          | Raise e => Some (goto (WRaised e) (set_lock None w))
          end
      end
  | W86 t =>
      if negb (t =? current_file_mtime (shared w)) then Some (goto (W87 t) w)
      else Some (goto W89 w)
  | W87 t =>
      Some (goto (W88 t)
              (say Watcher (Print ("File " +:+ fmt (target_file (shared w))
                                   +:+ " has been modified. Reloading...")) w))
  | W88 t =>
      Some (goto W89
              (write_shared {| target_file := target_file (shared w);
                               current_file_mtime := t |} w))
  | W89 => Some (goto W72 (set_lock None w))
  | W72 => None
  | WRaised _ => None
  end.

(** One statement of handler [i]. *)
Definition worker_step (os : OS) (i : nat) (w : Threads) : option Threads :=
  match workers w !! i with
  | None => None
  | Some k =>
      let at_ (l : hline) : worker :=
        {| at_line := l; path_attr := path_attr k; seen := seen k |} in
      let read_at (l : hline) : worker :=
        {| at_line := l; path_attr := path_attr k;
           seen := seen k ++ [shared w] |} in
      match at_line k with
      | H54 =>
          if bool_decide (path_attr k = Some "/"%string)
          then Some (set_worker i (at_ H56) w)
          else Some (set_worker i (at_ H64) w)
      | H56 =>
          match lock w with
          | None => Some (set_worker i (at_ H57) (set_lock (Some (Worker i)) w))
          | Some _ => None
          end
      | H57 =>
          match target_file (shared w) with
          | None =>
              Some (set_worker i (read_at (HRaised TypeError)) (set_lock None w))
          | Some f =>
              if path_exists os f then Some (set_worker i (read_at H58) w)
              else Some (set_worker i (read_at H60) w)
          end
      | H58 =>
          Some (set_worker i
                  {| at_line := H62; path_attr := target_file (shared w);
                     seen := seen k ++ [shared w] |} w)
      | H60 =>
          Some (set_worker i (read_at H61)
                  (say (Worker i)
                     (SendError 404 ("File Not Found: "
                                     +:+ fmt (target_file (shared w)))) w))
      | H61 => Some (set_worker i (at_ HDone) (set_lock None w))
      | H62 => Some (set_worker i (at_ H64) (set_lock None w))
      | H64 =>
          Some (set_worker i (at_ HDone) (say (Worker i) (SuperGET (path_attr k)) w))
      | HDone => None
      | HRaised _ => None
      end
  end.

(** Any thread that can move may be the next to move.  [handler_os i] is
    what the operating system answers handler [i]. *)
Inductive step (watcher_os : OS) (handler_os : nat -> OS)
  : Threads -> Threads -> Prop :=
| step_watcher w w' :
    watcher_step watcher_os w = Some w' ->
    step watcher_os handler_os w w'
| step_worker i w w' :
    worker_step (handler_os i) i w = Some w' ->
    step watcher_os handler_os w w'.

(** The watcher has just woken up, the requests have just arrived. *)
Definition arrival (path : string) : worker :=
  {| at_line := H54; path_attr := Some path; seen := [] |}.

Definition start (cls : Handler) (paths : list string) : Threads :=
  {| shared := cls; lock := None; watcher := W75;
     workers := arrival <$> paths; console := [] |}.

(** A schedule names the thread that moves at each instant; a thread that
    cannot move lets the instant pass. *)
Definition schedule_step (watcher_os : OS) (handler_os : nat -> OS)
  (w : Threads) (t : thread) : Threads :=
  let next :=
    match t with
    | Watcher => watcher_step watcher_os w
    | Worker i => worker_step (handler_os i) i w
    end in
  match next with
  | Some w' => w'
  | None => w
  end.

Definition run_schedule (watcher_os : OS) (handler_os : nat -> OS)
  (sched : list thread) (w : Threads) : Threads :=
  fold_left (schedule_step watcher_os handler_os) sched w.

(** ** Sample moments, for the statements that need a concrete one *)

(** A directory with two builds, the later one written at time 20. *)
Definition two_builds : OS :=
  {| listdir := Ok ["index1.html"; "index2.html"; "style.css"];
     path_exists := fun _ => true;
     getmtime := fun f => if String.eqb f "index2.html" then Ok 20 else Ok 10 |}.

(** A moment at which the directory cannot be read. *)
Definition unreadable : OS :=
  {| listdir := Raise OSError;
     path_exists := fun _ => false;
     getmtime := fun _ => Raise OSError |}.

(** The two builds are listed, but neither can be looked at any more. *)
Definition gone_after_listing : OS :=
  {| listdir := Ok ["index1.html"; "index2.html"; "style.css"];
     path_exists := fun _ => true;
     getmtime := fun _ => Raise OSError |}.

(** A directory from which every build is gone. *)
Definition no_builds : OS :=
  {| listdir := Ok ["style.css"];
     path_exists := fun _ => false;
     getmtime := fun _ => Raise OSError |}.

Definition serving_first : Handler :=
  {| target_file := Some "index1.html"; current_file_mtime := 10 |}.

Definition serving_second : Handler :=
  {| target_file := Some "index2.html"; current_file_mtime := 15 |}.

Definition serving_second_fresh : Handler :=
  {| target_file := Some "index2.html"; current_file_mtime := 20 |}.

(** Nothing new has appeared for [f], and [f] itself is not there: what an
    event sees while the served file is missing and has no replacement. *)
Definition still_missing (f : string) (ev : event) : Prop :=
  match ev with
  | GET _ os => path_exists os f = false
  | Tick os =>
      path_exists os f = false
      /\ forall listing,
           listdir os = Ok listing ->
           find_highest_version_file listing = None
           \/ find_highest_version_file listing = Some f
  end.

(** ** Predicates of the statements and of their proofs

    What is inside a [with] block, and what the proofs below carry along;
    none of this is executed by the program. *)

(** What follows the run does not start with a digit. *)
Definition no_digit_ahead (s : string) : Prop :=
  match s with
  | EmptyString => True
  | String c _ => Regex.is_digit c = false
  end.

(** What the loop holds after it has gone through [done]: nothing yet and
    no name had a number, or the first of the names with the greatest
    number. *)
Definition scanned (done : list string) (acc : Z * option string) : Prop :=
  match acc with
  | (max_num, None) =>
      max_num = -1 /\ forall g, g ∈ done -> version g = None
  | (max_num, Some f) =>
      exists before after,
        done = before ++ f :: after
        /\ version f = Some max_num
        /\ (forall g k, g ∈ before -> version g = Some k -> k < max_num)
        /\ (forall g k, g ∈ after -> version g = Some k -> k <= max_num)
  end.

(** The lines inside the [with] block of each thread. *)
Definition holds_lock (l : wline) : bool :=
  match l with
  | W78 _ | W79 _ | W80 _ | W81 _ | W84 | W85 | W86 _ | W87 _ | W88 _ | W89 => true
  | W75 | W77 _ | W72 | WRaised _ => false
  end.

Definition in_with (l : hline) : bool :=
  match l with
  | H57 | H58 | H60 | H61 | H62 => true
  | H54 | H56 | H64 | HDone | HRaised _ => false
  end.

(** What the class attributes are while the watcher stands at a line of a
    turn that began with [before]: the facts the turn has established so
    far, and at its end the result of [check_once]. *)
Definition watcher_at (os : OS) (before : Handler) (l : wline) (now : Handler)
  : Prop :=
  match l with
  | W75 => now = before
  | W89 | W72 => exists out, check_once os before = (Ok tt, now, out)
  | WRaised e => exists out, check_once os before = (Raise e, now, out)
  | _ =>
      exists listing,
        listdir os = Ok listing
        /\ let new_file := find_highest_version_file listing in
           let refreshing (t : mtime) :=
             now = before
             /\ switch_test new_file before = false
             /\ exists f, target_file before = Some f
                          /\ path_exists os f = true
                          /\ getmtime os f = Ok t in
           match l with
           | W77 nf | W78 nf => nf = new_file /\ now = before
           | W79 nf | W80 nf =>
               nf = new_file /\ now = before
               /\ switch_test new_file before = true
           | W81 nf =>
               nf = new_file
               /\ now = {| target_file := new_file;
                           current_file_mtime := current_file_mtime before |}
               /\ switch_test new_file before = true
           | W84 => now = before /\ switch_test new_file before = false
           | W85 =>
               now = before
               /\ switch_test new_file before = false
               /\ exists f, target_file before = Some f
                            /\ path_exists os f = true
           | W86 t => refreshing t
           | W87 t | W88 t =>
               refreshing t /\ (t =? current_file_mtime before) = false
           | _ => False
           end
  end.

(** The class attributes before the turn or after it: never in between. *)
Definition settled (os : OS) (before : Handler) (s : Handler) : Prop :=
  s = before \/ exists r out, check_once os before = (r, s, out).

Record coordinated (os : OS) (before : Handler) (w : Threads) : Prop := {
  co_watcher : watcher_at os before (watcher w) (shared w);
  co_watcher_lock : holds_lock (watcher w) = true <-> lock w = Some Watcher;
  co_worker_lock : forall i k,
    workers w !! i = Some k ->
    (in_with (at_line k) = true <-> lock w = Some (Worker i));
  co_seen : forall i k s,
    workers w !! i = Some k -> s ∈ seen k -> settled os before s
}.

(** How a step moves the lock: not at all, taken by the thread that was
    outside its [with] block, or given back by the thread that was inside. *)
Definition lock_move (me : thread) (inside inside' : bool)
  (held held' : option thread) : Prop :=
  (held' = held /\ inside' = inside)
  \/ (held = None /\ held' = Some me /\ inside = false /\ inside' = true)
  \/ (inside = true /\ held' = None /\ inside' = false).

(** The watcher moves up to its second assignment, a handler asks for the
    lock and has to wait, the watcher finishes, the handler goes through. *)
Definition switch_then_serve : list thread :=
  [Watcher; Watcher; Watcher; Watcher; Watcher; Worker 0; Worker 0;
   Watcher; Watcher; Worker 0; Worker 0; Worker 0; Worker 0; Worker 0].

(** ** Further predicates

    Used by the statements of the last part. *)

(** Whether the loop reads a number off a name. *)
Definition accepted (filename : string) : bool :=
  match version filename with
  | Some _ => true
  | None => false
  end.

(** The name a build with number [n] is given: the prefix, the decimal
    numeral of [n], the suffix. *)
Definition build_name (n : N) : string :=
  FILE_PREFIX +:+ pretty n +:+ FILE_SUFFIX.

(** A thread that has no statement left. *)
Definition watcher_done (l : wline) : bool :=
  match l with
  | W72 | WRaised _ => true
  | _ => false
  end.

Definition handler_done (l : hline) : bool :=
  match l with
  | HDone | HRaised _ => true
  | _ => false
  end.

(** The statements a thread has left at most, on its longest way out. *)
Definition watcher_steps_left (l : wline) : nat :=
  match l with
  | W75 => 9 | W77 _ => 8 | W78 _ => 7
  | W79 _ => 4 | W80 _ => 3 | W81 _ => 2
  | W84 => 6 | W85 => 5 | W86 _ => 4 | W87 _ => 3 | W88 _ => 2
  | W89 => 1
  | W72 | WRaised _ => 0
  end.

Definition handler_steps_left (l : hline) : nat :=
  match l with
  | H54 => 6 | H56 => 5 | H57 => 4
  | H58 => 3 | H62 => 2
  | H60 => 2 | H61 => 1
  | H64 => 1
  | HDone | HRaised _ => 0
  end.

Definition steps_left (w : Threads) : nat :=
  watcher_steps_left (watcher w)
  + sum_list_with (fun k => handler_steps_left (at_line k)) (workers w).

(** What one thread has sent to the outside so far. *)
Definition effects_of (t : thread) (console : list (thread * effect))
  : list effect :=
  snd <$> List.filter (fun te => bool_decide (fst te = t)) console.

(** What is known of a handler at its line: [p] is the path the request
    came with, [s] the class attributes it works with, [sent] what it has
    sent so far.  At its end that is the result of [handle]. *)
Definition handler_at (os : OS) (p : string) (s : Handler) (k : worker)
  (sent : list effect) : Prop :=
  match at_line k with
  | H54 => path_attr k = Some p /\ seen k = [] /\ sent = []
  | H56 | H57 =>
      path_attr k = Some p /\ seen k = [] /\ sent = [] /\ p = "/"
  | H58 =>
      p = "/" /\ sent = []
      /\ exists f, target_file s = Some f /\ path_exists os f = true
  | H60 =>
      p = "/" /\ sent = []
      /\ exists f, target_file s = Some f /\ path_exists os f = false
  | H62 =>
      p = "/" /\ sent = []
      /\ exists f, target_file s = Some f /\ path_exists os f = true
                   /\ path_attr k = Some f
  | H64 => sent = [] /\ handle os p s = (Ok tt, s, [SuperGET (path_attr k)])
  | H61 | HDone => handle os p s = (Ok tt, s, sent)
  | HRaised e => handle os p s = (Raise e, s, sent)
  end.

(** Every handler answers as [handle] would on class attributes that are
    settled, and has seen no others. *)
Definition linearized (watcher_os : OS) (handler_os : nat -> OS)
  (before : Handler) (paths : list string) (w : Threads) : Prop :=
  forall i k,
    workers w !! i = Some k ->
    exists p s,
      paths !! i = Some p
      /\ settled watcher_os before s
      /\ (in_with (at_line k) = true -> s = shared w)
      /\ (forall x, x ∈ seen k -> x = s)
      /\ handler_at (handler_os i) p s k (effects_of (Worker i) (console w)).

(** The lock is held by a thread that exists. *)
Definition owner_present (w : Threads) : Prop :=
  forall i, lock w = Some (Worker i) -> is_Some (workers w !! i).

(** * Properties *)

(** ** The pattern *)

Section Pattern.

Import Regex.

Lemma append_empty r : EmptyString +:+ r = r.
Proof. reflexivity. Qed.

Lemma append_String a p r : String a p +:+ r = String a (p +:+ r).
Proof. reflexivity. Qed.

Lemma literal_spec p s r : literal p s = Some r <-> s = p +:+ r.
Proof.
  revert s. induction p as [|a p IH]; intros s; simpl;
    rewrite ?append_empty, ?append_String.
  - split; congruence.
  - destruct s as [|b s]; [split; discriminate|].
    destruct (Ascii.eqb_spec a b) as [->|Hab].
    + rewrite IH. split; congruence.
    + split; [discriminate | congruence].
Qed.

Lemma digits_run_spec s d r :
  digits_run s = (d, r) -> s = d +:+ r /\ all_digits d /\ no_digit_ahead r.
Proof.
  revert d r. induction s as [|c s IH]; intros d r; simpl.
  - intros [= <- <-]. simpl. auto.
  - destruct (is_digit c) eqn:Hc.
    + destruct (digits_run s) as [d' r'] eqn:Hrun.
      intros [= <- <-]. destruct (IH _ _ eq_refl) as (-> & Hd & Hr).
      rewrite append_String. simpl. auto.
    + intros [= <- <-]. simpl. auto.
Qed.

Lemma digits_run_app d r :
  all_digits d -> no_digit_ahead r -> digits_run (d +:+ r) = (d, r).
Proof.
  induction d as [|c d IH]; simpl;
    rewrite ?append_empty, ?append_String.
  - intros _ Hr. destruct r as [|c r]; [reflexivity|].
    simpl in *. now rewrite Hr.
  - intros [Hc Hd] Hr. simpl. rewrite Hc, IH by assumption. reflexivity.
Qed.

Lemma at_dollar_spec s :
  at_dollar s = true <-> s = EmptyString \/ s = String newline EmptyString.
Proof.
  destruct s as [|c [|c' s]]; simpl.
  - intuition congruence.
  - destruct (Ascii.eqb_spec c newline) as [->|Hc]; intuition congruence.
  - intuition congruence.
Qed.

(** The matcher computes the language of [^index(\d+)\.html$]. *)
Lemma pattern_match_accepts filename group1 :
  pattern_match filename = Some group1 <-> accepts filename group1.
Proof.
  unfold pattern_match, accepts. split.
  - destruct (literal FILE_PREFIX filename) as [rest|] eqn:Hpre; [|discriminate].
    apply literal_spec in Hpre as ->.
    destruct (digits_run rest) as [d rest'] eqn:Hrun.
    apply digits_run_spec in Hrun as (-> & Hd & _).
    destruct (String.eqb_spec d EmptyString) as [|Hne]; [discriminate|].
    destruct (literal FILE_SUFFIX rest') as [tail|] eqn:Hsuf; [|discriminate].
    apply literal_spec in Hsuf as ->.
    destruct (at_dollar tail) eqn:Hend; [|discriminate].
    intros [= ->]. exists tail. apply at_dollar_spec in Hend. auto.
  - intros (tail & -> & Hne & Hd & Hend).
    assert (Hpre : literal FILE_PREFIX
              (FILE_PREFIX +:+ group1 +:+ FILE_SUFFIX +:+ tail)
            = Some (group1 +:+ FILE_SUFFIX +:+ tail)) by now apply literal_spec.
    rewrite Hpre, digits_run_app by (assumption || reflexivity).
    destruct (String.eqb_spec group1 EmptyString) as [|_]; [contradiction|].
    assert (Hsuf : literal FILE_SUFFIX (FILE_SUFFIX +:+ tail) = Some tail)
      by now apply literal_spec.
    rewrite Hsuf. apply at_dollar_spec in Hend. now rewrite Hend.
Qed.

Lemma digit_value_range c : is_digit c = true -> 0 <= digit_value c <= 9.
Proof.
  unfold is_digit, digit_value. cbv zeta.
  rewrite andb_true_iff, !N.leb_le. lia.
Qed.

Lemma int_digits_total s acc :
  all_digits s -> 0 <= acc -> exists n, int_digits acc s = Some n /\ acc <= n.
Proof.
  revert acc. induction s as [|c s IH]; intros acc; simpl.
  - intros _ Hacc. exists acc. split; [reflexivity | lia].
  - intros [Hc Hs] Hacc. rewrite Hc.
    pose proof (digit_value_range c Hc) as Hv.
    destruct (IH (10 * acc + digit_value c) Hs) as (n & Hn & Hle); [lia|].
    exists n. split; [assumption | lia].
Qed.

Lemma py_int_digits s :
  s <> EmptyString -> all_digits s -> exists n, py_int s = Some n /\ 0 <= n.
Proof.
  intros Hne Hd. destruct s as [|c s]; [contradiction|].
  unfold py_int. now apply int_digits_total.
Qed.

End Pattern.

(** ** The selector *)

Lemma version_nonneg f n : version f = Some n -> 0 <= n.
Proof.
  unfold version. destruct (Regex.pattern_match f) as [g|] eqn:Hm; [|discriminate].
  apply pattern_match_accepts in Hm as (tail & _ & Hne & Hd & _).
  destruct (py_int_digits g Hne Hd) as (k & Hk & Hpos). congruence.
Qed.

(** [scan_entry] in terms of [version]. *)
Lemma scan_entry_version max_num target filename :
  scan_entry (max_num, target) filename =
  match version filename with
  | Some num => if num >? max_num then (num, Some filename) else (max_num, target)
  | None => (max_num, target)
  end.
Proof.
  unfold scan_entry, version.
  destruct (Regex.pattern_match filename); [|reflexivity].
  destruct (py_int s); reflexivity.
Qed.

Lemma scanned_step done acc filename :
  scanned done acc -> scanned (done ++ [filename]) (scan_entry acc filename).
Proof.
  destruct acc as [max_num target]. rewrite scan_entry_version.
  destruct target as [f|]; simpl.
  - intros (before & after & -> & Hf & Hb & Ha).
    destruct (version filename) as [num|] eqn:Hv.
    + destruct (Z.gtb_spec num max_num) as [Hgt|Hle].
      * exists (before ++ f :: after), []. repeat split.
        -- assumption.
        -- intros g k Hg Hk. apply elem_of_app in Hg as [Hg|Hg].
           ++ specialize (Hb g k Hg Hk). lia.
           ++ apply elem_of_cons in Hg as [->|Hg].
              ** rewrite Hf in Hk. injection Hk as <-. lia.
              ** specialize (Ha g k Hg Hk). lia.
        -- intros g k Hg. inversion Hg.
      * exists before, (after ++ [filename]). repeat split.
        -- now rewrite <- app_assoc.
        -- assumption.
        -- assumption.
        -- intros g k Hg Hk. apply elem_of_app in Hg as [Hg|Hg].
           ++ eauto.
           ++ apply list_elem_of_singleton in Hg as ->.
              rewrite Hv in Hk. injection Hk as <-. lia.
    + exists before, (after ++ [filename]). repeat split.
      * now rewrite <- app_assoc.
      * assumption.
      * assumption.
      * intros g k Hg Hk. apply elem_of_app in Hg as [Hg|Hg].
        -- eauto.
        -- apply list_elem_of_singleton in Hg as ->. congruence.
  - intros [-> Hnone].
    destruct (version filename) as [num|] eqn:Hv.
    + pose proof (version_nonneg _ _ Hv) as Hpos.
      destruct (Z.gtb_spec num (-1)) as [_|Hle]; [|lia].
      exists done, []. repeat split.
      * assumption.
      * intros g k Hg Hk. rewrite (Hnone g Hg) in Hk. discriminate.
      * intros g k Hg. inversion Hg.
    + split; [reflexivity|].
      intros g Hg. apply elem_of_app in Hg as [Hg|Hg]; [auto|].
      now apply list_elem_of_singleton in Hg as ->.
Qed.

Lemma scanned_fold listing done acc :
  scanned done acc ->
  scanned (done ++ listing) (fold_left scan_entry listing acc).
Proof.
  revert done acc. induction listing as [|x listing IH]; intros done acc H; simpl.
  - now rewrite app_nil_r.
  - replace (done ++ x :: listing) with ((done ++ [x]) ++ listing)
      by now rewrite <- app_assoc.
    apply IH. now apply scanned_step.
Qed.

Lemma scanned_all listing :
  scanned listing (fold_left scan_entry listing (-1, None)).
Proof.
  apply (scanned_fold listing [] (-1, None)). split; [reflexivity|].
  intros g Hg. inversion Hg.
Qed.

(** The selector returns the first name, in listing order, among those with
    the greatest number; it returns nothing exactly when the pattern reads
    no number off any name. *)
Lemma find_highest_version_file_first_max listing :
  match find_highest_version_file listing with
  | None => forall g, g ∈ listing -> version g = None
  | Some f =>
      exists before after n,
        listing = before ++ f :: after
        /\ version f = Some n
        /\ (forall g k, g ∈ before -> version g = Some k -> k < n)
        /\ (forall g k, g ∈ after -> version g = Some k -> k <= n)
  end.
Proof.
  unfold find_highest_version_file.
  pose proof (scanned_all listing) as H.
  destruct (fold_left scan_entry listing (-1, None)) as [m [f|]]; simpl in *.
  - destruct H as (before & after & ?). exists before, after, m. assumption.
  - apply H.
Qed.

(** A name whose number no other name reaches is the one returned. *)
Lemma find_highest_version_file_unique listing f n :
  f ∈ listing ->
  version f = Some n ->
  (forall g k, g ∈ listing -> version g = Some k -> k <= n /\ (k = n -> g = f)) ->
  find_highest_version_file listing = Some f.
Proof.
  intros Hin Hf Hmax.
  pose proof (find_highest_version_file_first_max listing) as H.
  destruct (find_highest_version_file listing) as [r|].
  - destruct H as (before & after & m & -> & Hr & Hb & Ha).
    assert (Hrin : r ∈ before ++ r :: after)
      by (apply elem_of_app; right; apply elem_of_cons; now left).
    destruct (Hmax r m Hrin Hr) as [Hle Heq].
    assert (n <= m).
    { apply elem_of_app in Hin as [Hin|Hin].
      - specialize (Hb f n Hin Hf). lia.
      - apply elem_of_cons in Hin as [->|Hin].
        + rewrite Hf in Hr. injection Hr as <-. lia.
        + apply (Ha f n Hin Hf). }
    f_equal. apply Heq. lia.
  - rewrite (H f Hin) in Hf. discriminate.
Qed.

(** C1 (at the input where the code leaves the claim).  A directory whose
    only entry is "index5.html" followed by a line feed: the name is not of
    the form prefix, digits, suffix, so the claim has the selector return
    nothing; the compiled pattern's [$] lets the final line feed pass, and
    the selector returns the name. *)
Theorem selector_takes_trailing_line_feed :
  let name := "index5.html" +:+ String Regex.newline EmptyString in
  find_highest_version_file [name] = Some name
  /\ ~ spec_exact_pattern name.
Proof.
  cbv zeta. split; [reflexivity|].
  intros (digits & Heq & Hne & Hd).
  destruct digits as [|c1 digits]; [contradiction|].
  vm_compute in Heq. injection Heq as <- Heq.
  destruct digits as [|c2 digits]; [discriminate|].
  injection Heq as <- _.
  destruct Hd as [_ [Hdot _]]. discriminate.
Qed.

(** C8.  When one name carries the greatest number and no other name
    reaches it, every reordering of the listing gives the same result. *)
Theorem selector_permutation_invariant (listing listing' : list string) f n :
  f ∈ listing ->
  version f = Some n ->
  (forall g k, g ∈ listing -> version g = Some k -> k <= n /\ (k = n -> g = f)) ->
  listing ≡ₚ listing' ->
  find_highest_version_file listing' = find_highest_version_file listing.
Proof.
  intros Hin Hf Hmax Hperm.
  rewrite (find_highest_version_file_unique listing f n) by assumption.
  apply (find_highest_version_file_unique listing' f n).
  - now rewrite <- Hperm.
  - assumption.
  - intros g k Hg. rewrite <- Hperm in Hg. now apply Hmax.
Qed.

Lemma selector_permutation_invariant_witness :
  find_highest_version_file ["index10.html"; "notes.txt"; "index9.html"]
  = find_highest_version_file ["index9.html"; "index10.html"; "notes.txt"].
Proof.
  apply (selector_permutation_invariant
           ["index9.html"; "index10.html"; "notes.txt"]
           ["index10.html"; "notes.txt"; "index9.html"] "index10.html" 10).
  - apply elem_of_cons; right. apply elem_of_cons; now left.
  - reflexivity.
  - intros g k Hg Hk.
    apply elem_of_cons in Hg as [->|Hg];
      [|apply elem_of_cons in Hg as [->|Hg];
        [|apply list_elem_of_singleton in Hg as ->]];
      vm_compute in Hk; try discriminate; injection Hk as <-; split;
      (lia || (intros; lia) || reflexivity).
  - change ([?x; ?y; ?z]) with ([x] ++ [y; z]).
    apply (Permutation_app_comm ["index9.html"] ["index10.html"; "notes.txt"]).
Defined.

(** C9.  Whatever name the pattern accepts, [int] reads the captured group
    as a non-negative integer: the [except ValueError] branch of the loop
    is never taken. *)
Theorem captured_group_parses filename group1 :
  Regex.pattern_match filename = Some group1 ->
  exists n,
    py_int group1 = Some n
    /\ 0 <= n
    /\ forall max_num target,
         scan_entry (max_num, target) filename =
         if n >? max_num then (n, Some filename) else (max_num, target).
Proof.
  intros Hm.
  pose proof Hm as Ha. apply pattern_match_accepts in Ha as (tail & _ & Hne & Hd & _).
  destruct (py_int_digits group1 Hne Hd) as (n & Hn & Hpos).
  exists n. repeat split; try assumption.
  intros max_num target. unfold scan_entry. now rewrite Hm, Hn.
Qed.

Lemma captured_group_parses_witness :
  exists n,
    py_int "0042" = Some n
    /\ 0 <= n
    /\ forall max_num target,
         scan_entry (max_num, target) "index0042.html" =
         if n >? max_num then (n, Some "index0042.html") else (max_num, target).
Proof.
  apply (captured_group_parses "index0042.html" "0042"). reflexivity.
Defined.

(** ** The watcher *)

Lemma selected_truthy listing f :
  find_highest_version_file listing = Some f -> truthy (Some f) = true.
Proof.
  intros Hsel. pose proof (find_highest_version_file_first_max listing) as H.
  rewrite Hsel in H. destruct H as (_ & _ & n & _ & Hv & _).
  destruct f; [discriminate Hv | reflexivity].
Qed.

Lemma switch_test_true new_file cls f :
  new_file = Some f -> truthy (Some f) = true -> target_file cls <> Some f ->
  switch_test new_file cls = true.
Proof.
  intros -> Ht Hne. unfold switch_test. rewrite Ht. simpl.
  rewrite bool_decide_eq_false_2; [reflexivity | congruence].
Qed.

Lemma switch_test_same new_file cls :
  new_file = target_file cls -> switch_test new_file cls = false.
Proof.
  intros ->. unfold switch_test.
  rewrite bool_decide_eq_true_2 by reflexivity. apply andb_false_r.
Qed.

Ltac run_py :=
  unfold bind, lift, get, put, emit, ret, raise, set_target_file,
    set_current_file_mtime, os_path_getmtime, os_path_exists; cbn.

(** A turn that finds another name than the stored one, and the new file's
    time. *)
Lemma check_once_switch os cls listing new_file t :
  listdir os = Ok listing ->
  find_highest_version_file listing = Some new_file ->
  target_file cls <> Some new_file ->
  getmtime os new_file = Ok t ->
  check_once os cls =
  (Ok tt,
   {| target_file := Some new_file; current_file_mtime := t |},
   [Print ("New file detected: " +:+ new_file +:+ ". Reloading...")]).
Proof.
  intros Hls Hsel Hne Hmt. unfold check_once. run_py.
  rewrite Hls. cbn. rewrite Hsel.
  rewrite (switch_test_true (Some new_file) cls new_file eq_refl
             (selected_truthy _ _ Hsel) Hne).
  cbn. rewrite Hmt. reflexivity.
Qed.

(** The comparison of line 78 is on names: with the served build gone and
    only an older one left, the watcher switches to the lower number. *)
Example switch_to_a_lower_number :
  check_once {| listdir := Ok ["index1.html"; "style.css"];
                path_exists := fun f => String.eqb f "index1.html";
                getmtime := fun _ => Ok 10 |}
             serving_second
  = (Ok tt, serving_first,
     [Print "New file detected: index1.html. Reloading..."]).
Proof. reflexivity. Qed.

(** C4.  A turn in which the selector returns the stored name and the file
    is still there: a changed time is stored and announced, the name stays;
    an unchanged time changes nothing. *)
Theorem same_file_refresh os cls listing f t :
  listdir os = Ok listing ->
  find_highest_version_file listing = Some f ->
  target_file cls = Some f ->
  path_exists os f = true ->
  getmtime os f = Ok t ->
  (t <> current_file_mtime cls ->
   check_once os cls =
   (Ok tt,
    {| target_file := Some f; current_file_mtime := t |},
    [Print ("File " +:+ f +:+ " has been modified. Reloading...")]))
  /\ (t = current_file_mtime cls -> check_once os cls = (Ok tt, cls, [])).
Proof.
  intros Hls Hsel Htf Hex Hmt. unfold check_once. run_py.
  rewrite Hls. cbn. rewrite Hsel, switch_test_same by congruence.
  rewrite Htf. cbn. rewrite Hex, Hmt. cbn. split; intros Ht.
  - apply Z.eqb_neq in Ht. rewrite Ht. cbn. now rewrite Htf.
  - apply Z.eqb_eq in Ht. now rewrite Ht.
Qed.

Lemma same_file_refresh_witness :
  check_once two_builds serving_second =
  (Ok tt, serving_second_fresh,
   [Print ("File " +:+ "index2.html" +:+ " has been modified. Reloading...")])
  /\ check_once two_builds serving_second_fresh = (Ok tt, serving_second_fresh, []).
Proof.
  split.
  - apply (proj1 (same_file_refresh two_builds serving_second
                    ["index1.html"; "index2.html"; "style.css"] "index2.html" 20
                    eq_refl eq_refl eq_refl eq_refl eq_refl)).
    discriminate.
  - apply (proj2 (same_file_refresh two_builds serving_second_fresh
                    ["index1.html"; "index2.html"; "style.css"] "index2.html" 20
                    eq_refl eq_refl eq_refl eq_refl eq_refl)).
    reflexivity.
Defined.

(** The loop, one turn at a time. *)
Lemma check_for_updates_cons os later cls :
  check_for_updates (os :: later) cls =
  match check_once os cls with
  | (Ok _, cls', out) =>
      match check_for_updates later cls' with
      | (r, cls'', out') => (r, cls'', out ++ out')
      end
  | (Raise e, cls', out) => (Raise e, cls', out)
  end.
Proof. reflexivity. Qed.

(** C5 (as the code has it).  Nothing in [check_for_updates] catches an
    exception.  A turn in which [os.listdir] raises, or [os.path.getmtime]
    raises on the file the turn looks at, ends the loop with that exception
    and no later turn runs; when it is [os.listdir], or [getmtime] on the
    unchanged current file, the stored state is as before the turn.  A turn
    in which neither call raises completes, and the loop goes on with the
    next one. *)
Theorem failed_check_ends_the_loop os later cls f :
  target_file cls = Some f ->
  (forall e, listdir os = Raise e ->
     check_for_updates (os :: later) cls = (Raise e, cls, []))
  /\ (forall e listing,
        listdir os = Ok listing ->
        switch_test (find_highest_version_file listing) cls = false ->
        path_exists os f = true ->
        getmtime os f = Raise e ->
        check_for_updates (os :: later) cls = (Raise e, cls, []))
  /\ (forall e listing new_file,
        listdir os = Ok listing ->
        find_highest_version_file listing = Some new_file ->
        new_file <> f ->
        getmtime os new_file = Raise e ->
        exists cls' out,
          check_for_updates (os :: later) cls = (Raise e, cls', out))
  /\ (forall listing,
        listdir os = Ok listing ->
        (forall g, exists t, getmtime os g = Ok t) ->
        exists cls' out,
          check_once os cls = (Ok tt, cls', out)
          /\ check_for_updates (os :: later) cls =
             match check_for_updates later cls' with
             | (r, cls'', out') => (r, cls'', out ++ out')
             end).
Proof.
  intros Htf. repeat split.
  - intros e Hls. rewrite check_for_updates_cons. unfold check_once. run_py.
    now rewrite Hls.
  - intros e listing Hls Htest Hex Hmt.
    rewrite check_for_updates_cons. unfold check_once. run_py.
    rewrite Hls. cbn. rewrite Htest, Htf. cbn. now rewrite Hex, Hmt.
  - intros e listing new_file Hls Hsel Hne Hmt.
    rewrite check_for_updates_cons. unfold check_once. run_py.
    rewrite Hls. cbn. rewrite Hsel.
    rewrite (switch_test_true (Some new_file) cls new_file eq_refl
               (selected_truthy _ _ Hsel)) by congruence.
    cbn. rewrite Hmt. cbn. eauto.
  - intros listing Hls Hall.
    rewrite check_for_updates_cons. unfold check_once. run_py.
    rewrite Hls. cbn.
    destruct (switch_test (find_highest_version_file listing) cls) eqn:Htest.
    + destruct (find_highest_version_file listing) as [g|] eqn:Hsel;
        [|discriminate Htest].
      destruct (Hall g) as [t Ht]. cbn. rewrite Ht. cbn. eauto.
    + rewrite Htf. cbn. destruct (path_exists os f).
      * destruct (Hall f) as [t Ht]. rewrite Ht. cbn.
        destruct (t =? current_file_mtime cls); cbn; eauto.
      * cbn. eauto.
Qed.

Lemma failed_check_ends_the_loop_witness :
  check_for_updates [unreadable; two_builds] serving_first
  = (Raise OSError, serving_first, [])
  /\ check_for_updates [gone_after_listing; two_builds] serving_second
     = (Raise OSError, serving_second, [])
  /\ (exists cls' out,
        check_for_updates [gone_after_listing; two_builds] serving_first
        = (Raise OSError, cls', out))
  /\ (exists cls' out,
        check_once two_builds serving_first = (Ok tt, cls', out)
        /\ check_for_updates [two_builds; two_builds] serving_first =
           match check_for_updates [two_builds] cls' with
           | (r, cls'', out') => (r, cls'', out ++ out')
           end).
Proof.
  split; [|split; [|split]].
  - apply (proj1 (failed_check_ends_the_loop unreadable [two_builds]
                    serving_first "index1.html" eq_refl) OSError).
    reflexivity.
  - apply (proj1 (proj2 (failed_check_ends_the_loop gone_after_listing
                           [two_builds] serving_second "index2.html" eq_refl))
             OSError ["index1.html"; "index2.html"; "style.css"]);
      reflexivity.
  - apply (proj1 (proj2 (proj2 (failed_check_ends_the_loop gone_after_listing
                                  [two_builds] serving_first "index1.html"
                                  eq_refl)))
             OSError ["index1.html"; "index2.html"; "style.css"] "index2.html");
      (reflexivity || discriminate).
  - apply (proj2 (proj2 (proj2 (failed_check_ends_the_loop two_builds
                                  [two_builds] serving_first "index1.html"
                                  eq_refl)))
             ["index1.html"; "index2.html"; "style.css"]).
    + reflexivity.
    + intros g. simpl. destruct (String.eqb g "index2.html"); eauto.
Defined.

(** C5 (where the claim fails).  The directory cannot be read at one turn
    and holds a new build at the next.  Had the failed turn counted as "no
    change", the loop would have gone on to the second turn and switched;
    the loop ends at the first with the OSError instead. *)
Lemma failed_check_kills_the_watcher :
  check_once unreadable serving_first = (Raise OSError, serving_first, [])
  /\ check_for_updates [unreadable; two_builds] serving_first
     = (Raise OSError, serving_first, [])
  /\ check_for_updates [two_builds] serving_first
     = (Ok tt,
        {| target_file := Some "index2.html"; current_file_mtime := 20 |},
        [Print "New file detected: index2.html. Reloading..."]).
Proof. repeat split. Qed.

(** ** The request handler *)

Lemma handle_root_missing os cls f :
  target_file cls = Some f ->
  path_exists os f = false ->
  handle os "/" cls =
  (Ok tt, cls, [SendError 404 ("File Not Found: " +:+ f)]).
Proof.
  intros Htf Hex. unfold handle, do_GET, super_do_GET. run_py.
  rewrite Htf. cbn. now rewrite Hex.
Qed.

Lemma check_once_still_missing os cls f :
  target_file cls = Some f ->
  still_missing f (Tick os) ->
  check_once os cls = (Ok tt, cls, [])
  \/ exists e, check_once os cls = (Raise e, cls, []).
Proof.
  intros Htf [Hex Hsel]. unfold check_once. run_py.
  destruct (listdir os) as [listing|e] eqn:Hls; cbn; [|eauto].
  left.
  assert (Htest : switch_test (find_highest_version_file listing) cls = false).
  { destruct (Hsel listing eq_refl) as [->| ->].
    - reflexivity.
    - now apply switch_test_same. }
  rewrite Htest, Htf. cbn. now rewrite Hex.
Qed.

(** Every event has its outcome, in the order of the events. *)
Lemma process_events_events p evs :
  fst <$> snd (process_events p evs) = evs.
Proof.
  revert p. induction evs as [|ev evs IH]; intros p; simpl; [reflexivity|].
  destruct (process_event p ev) as [p' o]. specialize (IH p').
  destruct (process_events p' evs) as [p'' outs].
  cbn [snd] in *. rewrite fmap_cons. cbn [fst]. now rewrite IH.
Qed.

(** The outcome of the event at position [i] is what the process does with
    it after the events before it. *)
Lemma process_events_lookup p evs i ev :
  evs !! i = Some ev ->
  snd (process_events p evs) !! i
  = Some (ev, snd (process_event (fst (process_events p (take i evs))) ev)).
Proof.
  revert p i. induction evs as [|ev0 evs IH]; intros p i Hi; [discriminate|].
  destruct i as [|i]; simpl in *.
  - injection Hi as ->.
    destruct (process_event p ev) as [p' o].
    destruct (process_events p' evs) as [p'' outs]. reflexivity.
  - specialize (IH (fst (process_event p ev0)) i Hi).
    destruct (process_event p ev0) as [p' o]. simpl in IH.
    destruct (process_events p' evs) as [p'' outs].
    destruct (process_events p' (take i evs)) as [p3 outs3].
    exact IH.
Qed.

Lemma process_event_still_missing p f ev :
  target_file (class_attrs p) = Some f ->
  still_missing f ev ->
  target_file (class_attrs (fst (process_event p ev))) = Some f
  /\ forall os, ev = GET "/" os ->
       snd (process_event p ev)
       = (Ok tt, [SendError 404 ("File Not Found: " +:+ f)]).
Proof.
  intros Htf Hev. destruct ev as [os|path os]; simpl.
  - split; [|discriminate].
    destruct (watcher_dead p); [assumption|].
    destruct (check_once_still_missing os (class_attrs p) f Htf Hev)
      as [Hrun|[e Hrun]]; now rewrite Hrun.
  - destruct (decide (path = "/")) as [->|Hne].
    + rewrite (handle_root_missing os (class_attrs p) f Htf Hev). simpl.
      split; [assumption | reflexivity].
    + split; [|intros os' [= ? _]; contradiction].
      unfold handle, do_GET, super_do_GET. run_py.
      now rewrite bool_decide_eq_false_2 by congruence.
Qed.

Lemma process_events_still_missing p f evs :
  target_file (class_attrs p) = Some f ->
  Forall (still_missing f) evs ->
  target_file (class_attrs (fst (process_events p evs))) = Some f.
Proof.
  intros Htf Hall. revert p Htf.
  induction Hall as [|ev evs Hev _ IH]; intros p Htf; simpl; [assumption|].
  destruct (process_event_still_missing p f ev Htf Hev) as [Htf' _].
  destruct (process_event p ev) as [p' o]. specialize (IH p' Htf').
  destruct (process_events p' evs) as [p'' outs]. exact IH.
Qed.

(** C6.  While the stored file is missing and nothing has taken its place,
    every event has its outcome, every request for "/" is answered with a
    404 that names the file, the handler returns normally, and the stored
    name stays as it is, so the next request is answered the same way. *)
Theorem missing_target_is_not_found p f evs :
  target_file (class_attrs p) = Some f ->
  Forall (still_missing f) evs ->
  target_file (class_attrs (fst (process_events p evs))) = Some f
  /\ fst <$> snd (process_events p evs) = evs
  /\ (forall i os,
        evs !! i = Some (GET "/" os) ->
        snd (process_events p evs) !! i
        = Some (GET "/" os,
                (Ok tt, [SendError 404 ("File Not Found: " +:+ f)])))
  /\ forall ev o,
       (ev, o) ∈ snd (process_events p evs) ->
       forall os, ev = GET "/" os ->
       o = (Ok tt, [SendError 404 ("File Not Found: " +:+ f)]).
Proof.
  intros Htf Hall.
  assert (Hat : forall i os,
            evs !! i = Some (GET "/" os) ->
            snd (process_events p evs) !! i
            = Some (GET "/" os,
                    (Ok tt, [SendError 404 ("File Not Found: " +:+ f)]))).
  { intros i os Hi.
    etrans; [apply (process_events_lookup p evs i _ Hi)|].
    assert (Hbefore : target_file
                        (class_attrs (fst (process_events p (take i evs))))
                      = Some f).
    { apply process_events_still_missing; [assumption|].
      now apply Forall_take. }
    assert (Hev : still_missing f (GET "/" os)).
    { rewrite Forall_lookup in Hall. exact (Hall i _ Hi). }
    destruct (process_event_still_missing _ f _ Hbefore Hev) as [_ Hout].
    now rewrite (Hout os eq_refl). }
  split; [now apply process_events_still_missing|].
  split; [apply process_events_events|]. split; [exact Hat|].
  intros ev o Hin os ->.
  apply list_elem_of_lookup in Hin as [i Hi].
  assert (Hev : evs !! i = Some (GET "/" os)).
  { pose proof (f_equal (fun l => l !! i) (process_events_events p evs)) as He.
    cbv beta in He. rewrite list_lookup_fmap in He. unfold outcome in *.
    rewrite Hi in He. now symmetry. }
  pose proof (Hat i os Hev) as Hthere. unfold outcome in *.
  rewrite Hthere in Hi. now injection Hi as <-.
Qed.

Lemma missing_target_is_not_found_witness :
  let p := {| class_attrs := serving_first; watcher_dead := None |} in
  let evs := [GET "/" no_builds; Tick no_builds; GET "/" no_builds] in
  target_file (class_attrs (fst (process_events p evs))) = Some "index1.html"
  /\ fst <$> snd (process_events p evs) = evs
  /\ (forall i os,
        evs !! i = Some (GET "/" os) ->
        snd (process_events p evs) !! i
        = Some (GET "/" os,
                (Ok tt, [SendError 404 ("File Not Found: " +:+ "index1.html")])))
  /\ forall ev o,
       (ev, o) ∈ snd (process_events p evs) ->
       forall os, ev = GET "/" os ->
       o = (Ok tt, [SendError 404 ("File Not Found: " +:+ "index1.html")]).
Proof.
  apply (missing_target_is_not_found
           {| class_attrs := serving_first; watcher_dead := None |}
           "index1.html"
           [GET "/" no_builds; Tick no_builds; GET "/" no_builds]).
  - reflexivity.
  - apply Forall_cons; split; [reflexivity|].
    apply Forall_cons; split.
    + split; [reflexivity|]. intros listing [= <-]. left. reflexivity.
    + apply Forall_cons; split; [reflexivity | apply Forall_nil_2].
Defined.

Lemma do_GET_class os self : cls_of (snd (fst (do_GET os self))) = cls_of self.
Proof.
  unfold do_GET, super_do_GET. run_py.
  destruct (bool_decide (self_path self = Some "/")); [|reflexivity].
  destruct (target_file (cls_of self)) as [f|]; [|reflexivity].
  cbn. destruct (path_exists os f); reflexivity.
Qed.

Lemma handle_class os path cls : snd (fst (handle os path cls)) = cls.
Proof.
  unfold handle.
  pose proof (do_GET_class os {| cls_of := cls; self_path := Some path |}) as H.
  destruct (do_GET os {| cls_of := cls; self_path := Some path |}) as [[r self] out].
  exact H.
Qed.

Lemma worker_step_shared os i w w' :
  worker_step os i w = Some w' -> shared w' = shared w.
Proof.
  unfold worker_step. destruct (workers w !! i) as [k|]; [|discriminate].
  destruct (at_line k); try discriminate;
    repeat match goal with
      | |- context [match ?x with _ => _ end] => destruct x
      end;
    try discriminate; now intros [= <-].
Qed.

(** C10.  A GET leaves the class attributes as they were, whatever the path
    and whatever the disk looks like: [do_GET] assigns to [self.path] only.
    So they are the same after any number of requests, and a handler moving
    one statement at a time never changes them either. *)
Theorem do_GET_keeps_the_class_attributes :
  (forall os self, cls_of (snd (fst (do_GET os self))) = cls_of self)
  /\ (forall p (requests : list (string * OS)),
        fst (process_events p (map (fun r => GET (fst r) (snd r)) requests)) = p)
  /\ (forall os i w w', worker_step os i w = Some w' -> shared w' = shared w).
Proof.
  split; [exact do_GET_class|]. split; [|exact worker_step_shared].
  intros p requests. revert p.
  induction requests as [|[path os] requests IH]; intros p; simpl; [reflexivity|].
  pose proof (handle_class os path (class_attrs p)) as H.
  destruct (handle os path (class_attrs p)) as [[r cls] out]. simpl in H. subst cls.
  replace {| class_attrs := class_attrs p; watcher_dead := watcher_dead p |}
    with p by now destruct p.
  specialize (IH p).
  destruct (process_events p (map (fun r => GET (fst r) (snd r)) requests))
    as [p' outs].
  exact IH.
Qed.

(** ** The main block *)

Lemma no_match_selects_nothing listing :
  (forall g, g ∈ listing -> Regex.pattern_match g = None) ->
  find_highest_version_file listing = None.
Proof.
  intros Hnone. pose proof (find_highest_version_file_first_max listing) as H.
  destruct (find_highest_version_file listing) as [f|]; [|reflexivity].
  destruct H as (before & after & n & -> & Hv & _).
  unfold version in Hv. rewrite Hnone in Hv; [discriminate|].
  apply elem_of_app; right. apply elem_of_cons; now left.
Qed.

(** C7.  With no name in the directory that the pattern accepts, the main
    block prints its diagnostic and exits with status 1: nothing is stored,
    no thread is started and no server is bound.  Once the server is
    serving, a KeyboardInterrupt is answered by the farewell and status
    0. *)
Theorem startup_and_interrupt_exit_codes l cls listing :
  listdir (at_startup l) = Ok listing ->
  ((forall g, g ∈ listing -> Regex.pattern_match g = None) ->
   main l cls =
   (Raise (SystemExit 1), cls,
    [Print "Error: Could not find any files matching 'index*.html' in the current directory."])
   /\ exit_code (fst (fst (main l cls))) = Some 1)
  /\ (forall f t,
        find_highest_version_file listing = Some f ->
        getmtime (at_startup l) f = Ok t ->
        bound l = Ok tt ->
        interrupt l = Some KeyboardInterrupt ->
        main l cls =
        (Raise (SystemExit 0),
         {| target_file := Some f; current_file_mtime := t |},
         [ThreadStart; ServerBind 8000;
          Print ("Serving '" +:+ f +:+ "' at http://localhost:8000");
          Print "Press Ctrl+C to stop the server.";
          ServeForever;
          Print (String Regex.newline "Server stopped.");
          ServerClose])
        /\ exit_code (fst (fst (main l cls))) = Some 0).
Proof.
  intros Hls. split.
  - intros Hnone. apply no_match_selects_nothing in Hnone.
    assert (Hmain : main l cls =
      (Raise (SystemExit 1), cls,
       [Print "Error: Could not find any files matching 'index*.html' in the current directory."])).
    { unfold main. run_py. rewrite Hls. cbn. rewrite Hnone. reflexivity. }
    now rewrite Hmain.
  - intros f t Hsel Hmt Hbound Hint.
    assert (Hmain : main l cls =
      (Raise (SystemExit 0),
       {| target_file := Some f; current_file_mtime := t |},
       [ThreadStart; ServerBind 8000;
        Print ("Serving '" +:+ f +:+ "' at http://localhost:8000");
        Print "Press Ctrl+C to stop the server.";
        ServeForever;
        Print (String Regex.newline "Server stopped.");
        ServerClose])).
    { unfold main. run_py. rewrite Hls. cbn. rewrite Hsel.
      rewrite (selected_truthy _ _ Hsel). cbn. rewrite Hmt. cbn.
      rewrite Hbound. cbn. rewrite Hint. reflexivity. }
    now rewrite Hmain.
Qed.

Lemma startup_and_interrupt_exit_codes_witness :
  (main {| at_startup := no_builds; bound := Ok tt; interrupt := None |}
        class_body =
   (Raise (SystemExit 1), class_body,
    [Print "Error: Could not find any files matching 'index*.html' in the current directory."])
   /\ exit_code (fst (fst (main {| at_startup := no_builds; bound := Ok tt;
                                   interrupt := None |} class_body))) = Some 1)
  /\ (main {| at_startup := two_builds; bound := Ok tt;
              interrupt := Some KeyboardInterrupt |} class_body =
      (Raise (SystemExit 0), serving_second_fresh,
       [ThreadStart; ServerBind 8000;
        Print ("Serving '" +:+ "index2.html" +:+ "' at http://localhost:8000");
        Print "Press Ctrl+C to stop the server.";
        ServeForever;
        Print (String Regex.newline "Server stopped.");
        ServerClose])
      /\ exit_code (fst (fst (main {| at_startup := two_builds; bound := Ok tt;
                                      interrupt := Some KeyboardInterrupt |}
                                   class_body))) = Some 0).
Proof.
  split.
  - apply (proj1 (startup_and_interrupt_exit_codes
                    {| at_startup := no_builds; bound := Ok tt;
                       interrupt := None |}
                    class_body ["style.css"] eq_refl)).
    intros g Hg. apply list_elem_of_singleton in Hg as ->. reflexivity.
  - apply (proj2 (startup_and_interrupt_exit_codes
                    {| at_startup := two_builds; bound := Ok tt;
                       interrupt := Some KeyboardInterrupt |}
                    class_body ["index1.html"; "index2.html"; "style.css"]
                    eq_refl)
             "index2.html" 20);
      reflexivity.
Defined.

(** ** One turn of the watcher among requests *)

Ltac crunch :=
  unfold check_once; run_py;
  repeat (match goal with
          | H : listdir _ = _ |- _ => rewrite H
          | H : switch_test _ _ = _ |- _ => rewrite H
          | H : find_highest_version_file _ = _ |- _ => rewrite H
          | H : getmtime _ _ = _ |- _ => rewrite H
          | H : path_exists _ _ = _ |- _ => rewrite H
          | H : target_file _ = _ |- _ => rewrite H
          | H : (_ =? _) = _ |- _ => rewrite H
          end; cbn).

Lemma watcher_step_at os before w w' :
  watcher_at os before (watcher w) (shared w) ->
  watcher_step os w = Some w' ->
  watcher_at os before (watcher w') (shared w').
Proof.
  unfold watcher_step. intros Hat.
  destruct (watcher w) eqn:Hl; simpl in Hat.
  - (* W75 *)
    destruct (listdir os) as [listing|e] eqn:Hls; intros [= <-]; simpl.
    + exists listing. auto.
    + rewrite Hat. eexists. crunch. reflexivity.
  - (* W77 *)
    destruct (lock w); [discriminate|]. intros [= <-]. exact Hat.
  - (* W78 *)
    destruct Hat as (listing & Hls & -> & Hsh). rewrite Hsh.
    destruct (switch_test _ before) eqn:Htest; intros [= <-]; simpl;
      exists listing; rewrite Hsh; auto.
  - (* W79 *)
    intros [= <-]. exact Hat.
  - (* W80 *)
    destruct Hat as (listing & Hls & -> & Hsh & Htest).
    intros [= <-]. simpl. exists listing. rewrite Hsh. auto.
  - (* W81 *)
    destruct Hat as (listing & Hls & -> & Hsh & Htest).
    destruct (find_highest_version_file listing) as [f|] eqn:Hsel;
      [|discriminate Htest].
    destruct (getmtime os f) as [t|e] eqn:Hmt; intros [= <-]; simpl;
      rewrite Hsh; simpl; eexists; crunch; reflexivity.
  - (* W84 *)
    destruct Hat as (listing & Hls & Hsh & Htest). rewrite Hsh.
    destruct (target_file before) as [f|] eqn:Htf.
    + destruct (path_exists os f) eqn:Hex; intros [= <-]; simpl; rewrite Hsh.
      * exists listing. eauto 10.
      * eexists. crunch. reflexivity.
    + intros [= <-]. simpl. rewrite Hsh. eexists. crunch. reflexivity.
  - (* W85 *)
    destruct Hat as (listing & Hls & Hsh & Htest & f & Htf & Hex).
    rewrite Hsh, Htf.
    destruct (getmtime os f) as [t|e] eqn:Hmt; intros [= <-]; simpl; rewrite Hsh.
    + exists listing. eauto 10.
    + eexists. crunch. reflexivity.
  - (* W86 *)
    destruct Hat as (listing & Hls & Hsh & Htest & f & Htf & Hex & Hmt).
    rewrite Hsh.
    destruct (current_mtime =? current_file_mtime before) eqn:Heq;
      intros [= <-]; simpl; rewrite Hsh.
    + eexists. crunch. reflexivity.
    + exists listing. eauto 10.
  - (* W87 *)
    intros [= <-]. exact Hat.
  - (* W88 *)
    destruct Hat as (listing & Hls & (Hsh & Htest & f & Htf & Hex & Hmt) & Heq).
    intros [= <-]. simpl. rewrite Hsh. eexists. crunch. reflexivity.
  - (* W89 *)
    intros [= <-]. exact Hat.
  - discriminate.
  - discriminate.
Qed.

Lemma watcher_step_frame os w w' :
  watcher_step os w = Some w' ->
  workers w' = workers w
  /\ lock_move Watcher (holds_lock (watcher w)) (holds_lock (watcher w'))
       (lock w) (lock w').
Proof.
  unfold watcher_step, lock_move.
  destruct (watcher w) eqn:Hl; try discriminate;
    repeat match goal with
      | |- context [match ?x with _ => _ end] => destruct x eqn:?
      end;
    try discriminate; intros [= <-]; simpl; rewrite ?Hl; simpl; auto 10.
Qed.

Lemma worker_step_frame os i w w' :
  worker_step os i w = Some w' ->
  exists k k',
    workers w !! i = Some k
    /\ workers w' = <[i := k']> (workers w)
    /\ watcher w' = watcher w
    /\ shared w' = shared w
    /\ (seen k' = seen k
        \/ (seen k' = seen k ++ [shared w] /\ in_with (at_line k) = true))
    /\ lock_move (Worker i) (in_with (at_line k)) (in_with (at_line k'))
         (lock w) (lock w').
Proof.
  unfold worker_step, lock_move.
  destruct (workers w !! i) as [k|] eqn:Hk; [|discriminate].
  destruct (at_line k) eqn:Hl; try discriminate;
    repeat match goal with
      | |- context [match ?x with _ => _ end] => destruct x eqn:?
      end;
    try discriminate; intros [= <-]; eexists k, _;
    (split; [reflexivity|]); (split; [reflexivity|]);
    (split; [reflexivity|]); (split; [reflexivity|]);
    simpl; rewrite ?Hl; simpl; auto 10.
Qed.

(** Outside the watcher's [with] block the attributes are settled. *)
Lemma settled_outside os before w :
  watcher_at os before (watcher w) (shared w) ->
  holds_lock (watcher w) = false ->
  settled os before (shared w).
Proof.
  unfold settled. destruct (watcher w); simpl; try discriminate; intros Hat _.
  - now left.
  - destruct Hat as (_ & _ & _ & ->). now left.
  - destruct Hat as [out Hrun]. eauto.
  - destruct Hat as [out Hrun]. eauto.
Qed.

Lemma coordinated_start os before paths :
  coordinated os before (start before paths).
Proof.
  split; simpl.
  - reflexivity.
  - split; discriminate.
  - intros i k Hk. apply list_lookup_fmap_Some_1 in Hk as (path & -> & _).
    simpl. split; discriminate.
  - intros i k s Hk. apply list_lookup_fmap_Some_1 in Hk as (path & -> & _).
    simpl. intros Hs. inversion Hs.
Qed.

Lemma coordinated_step watcher_os handler_os before w w' :
  coordinated watcher_os before w ->
  step watcher_os handler_os w w' ->
  coordinated watcher_os before w'.
Proof.
  intros [Hat Hwl Hkl Hseen] Hstep. destruct Hstep as [w w' Hs|i w w' Hs].
  - pose proof (watcher_step_at _ _ _ _ Hat Hs) as Hat'.
    apply watcher_step_frame in Hs as [Hws Hmove].
    split; [assumption| | |]; rewrite ?Hws.
    + destruct Hmove as [[-> ->]|[(Hn & -> & Hin & ->)|(Hin & -> & ->)]];
        [assumption | tauto | split; discriminate].
    + intros i k Hk. specialize (Hkl i k Hk).
      destruct Hmove as [[-> _]|[(Hn & -> & _ & _)|(Hin & -> & _)]].
      * assumption.
      * rewrite Hn in Hkl. split; [|discriminate].
        intros Hi. apply Hkl in Hi. discriminate.
      * apply Hwl in Hin. rewrite Hin in Hkl. split; [|discriminate].
        intros Hi. apply Hkl in Hi. discriminate.
    + assumption.
  - apply worker_step_frame in Hs
      as (k & k' & Hk & Hws & Hw & Hsh & Hseen' & Hmove).
    assert (Hlen : (i < length (workers w))%nat) by (eapply lookup_lt_Some; eassumption).
    pose proof (Hkl i k Hk) as Hki.
    split; rewrite ?Hw, ?Hsh, ?Hws.
    + assumption.
    + destruct Hmove as [[-> _]|[(Hn & -> & _ & _)|(Hin & -> & _)]].
      * assumption.
      * rewrite Hn in Hwl. split; [|discriminate].
        intros Hh. apply Hwl in Hh. discriminate.
      * apply Hki in Hin. rewrite Hin in Hwl. split; [|discriminate].
        intros Hh. apply Hwl in Hh. discriminate.
    + intros j kj Hj. destruct (decide (i = j)) as [<-|Hij].
      * rewrite list_lookup_insert_eq in Hj by assumption.
        injection Hj as <-.
        destruct Hmove as [[-> ->]|[(Hn & -> & _ & ->)|(Hin & -> & ->)]];
          [assumption | tauto | split; discriminate].
      * rewrite list_lookup_insert_ne in Hj by assumption.
        specialize (Hkl j kj Hj).
        destruct Hmove as [[-> _]|[(Hn & -> & _ & _)|(Hin & -> & _)]].
        -- assumption.
        -- rewrite Hn in Hkl. split; [|intros [= ?]; contradiction].
           intros Hi. apply Hkl in Hi. discriminate.
        -- apply Hki in Hin. rewrite Hin in Hkl. split; [|discriminate].
           intros Hi. apply Hkl in Hi. injection Hi as ?. contradiction.
    + intros j kj s Hj Hs. destruct (decide (i = j)) as [<-|Hij].
      * rewrite list_lookup_insert_eq in Hj by assumption.
        injection Hj as <-.
        destruct Hseen' as [Heq|[Heq Hin]]; rewrite Heq in Hs.
        -- eauto.
        -- apply elem_of_app in Hs as [Hs|Hs]; [eauto|].
           apply list_elem_of_singleton in Hs as ->.
           apply settled_outside; [assumption|].
           apply Hki in Hin. destruct (holds_lock (watcher w)); [|reflexivity].
           destruct Hwl as [Hwl _]. rewrite Hwl in Hin by reflexivity.
           discriminate.
      * rewrite list_lookup_insert_ne in Hj by assumption. eauto.
Qed.

Lemma coordinated_reachable watcher_os handler_os before w w' :
  coordinated watcher_os before w ->
  rtc (step watcher_os handler_os) w w' ->
  coordinated watcher_os before w'.
Proof.
  intros Hco Hrun. induction Hrun as [w|w w1 w2 Hstep _ IH]; [assumption|].
  apply IH. eapply coordinated_step; eassumption.
Qed.

Lemma run_schedule_reachable watcher_os handler_os sched w :
  rtc (step watcher_os handler_os) w
    (run_schedule watcher_os handler_os sched w).
Proof.
  unfold run_schedule. revert w.
  induction sched as [|t sched IH]; intros w; simpl; [apply rtc_refl|].
  unfold schedule_step at 2. destruct t as [|i].
  - destruct (watcher_step watcher_os w) as [w'|] eqn:Hs; [|apply IH].
    eapply rtc_l; [apply step_watcher; eassumption | apply IH].
  - destruct (worker_step (handler_os i) i w) as [w'|] eqn:Hs; [|apply IH].
    eapply rtc_l; [eapply step_worker; eassumption | apply IH].
Qed.

(** C2.  One turn of the watcher that switches from [old_file] to
    [new_file], any number of requests in flight, any interleaving of their
    statements.  Every time a handler reads the class it finds the name and
    the time of the old file, or the name and the time of the new one.  The
    two fields disagree only while the watcher holds the lock, and a handler
    is inside its [with] block only while it holds the lock itself. *)
Theorem requests_see_old_or_new
  watcher_os handler_os old_file old_mtime new_file new_mtime listing paths w :
  listdir watcher_os = Ok listing ->
  find_highest_version_file listing = Some new_file ->
  new_file <> old_file ->
  getmtime watcher_os new_file = Ok new_mtime ->
  let old := {| target_file := Some old_file; current_file_mtime := old_mtime |} in
  let new := {| target_file := Some new_file; current_file_mtime := new_mtime |} in
  rtc (step watcher_os handler_os) (start old paths) w ->
  (shared w = old \/ shared w = new \/ lock w = Some Watcher)
  /\ forall i k,
       workers w !! i = Some k ->
       (in_with (at_line k) = true -> lock w = Some (Worker i))
       /\ forall s, s ∈ seen k -> s = old \/ s = new.
Proof.
  intros Hls Hsel Hne Hmt old new Hrun.
  assert (Hturn : forall s, settled watcher_os old s -> s = old \/ s = new).
  { intros s [->|(r & out & Hs)]; [now left|]. right.
    rewrite (check_once_switch watcher_os old listing new_file new_mtime)
      in Hs; try assumption.
    - now injection Hs as _ <- _.
    - simpl. congruence. }
  destruct (coordinated_reachable _ _ _ _ _
              (coordinated_start watcher_os old paths) Hrun)
    as [Hat Hwl Hkl Hseen].
  split.
  - destruct (holds_lock (watcher w)) eqn:Hh.
    + right; right. now apply Hwl.
    + destruct (Hturn _ (settled_outside _ _ _ Hat Hh)); auto.
  - intros i k Hk. split.
    + apply Hkl. assumption.
    + intros s Hs. apply Hturn. eapply Hseen; eassumption.
Qed.

Lemma requests_see_old_or_new_witness :
  let w := run_schedule two_builds (fun _ => two_builds) switch_then_serve
             (start serving_first ["/"; "/style.css"]) in
  (shared w = serving_first \/ shared w = serving_second_fresh
   \/ lock w = Some Watcher)
  /\ forall i k,
       workers w !! i = Some k ->
       (in_with (at_line k) = true -> lock w = Some (Worker i))
       /\ forall s, s ∈ seen k -> s = serving_first \/ s = serving_second_fresh.
Proof.
  apply (requests_see_old_or_new two_builds (fun _ => two_builds)
           "index1.html" 10 "index2.html" 20
           ["index1.html"; "index2.html"; "style.css"]
           ["/"; "/style.css"]).
  - reflexivity.
  - reflexivity.
  - discriminate.
  - reflexivity.
  - apply run_schedule_reachable.
Defined.

Example switch_then_serve_run :
  let w := run_schedule two_builds (fun _ => two_builds) switch_then_serve
             (start serving_first ["/"; "/style.css"]) in
  shared w = serving_second_fresh
  /\ lock w = None
  /\ watcher w = W72
  /\ workers w !! 0%nat =
     Some {| at_line := HDone; path_attr := Some "index2.html";
             seen := [serving_second_fresh; serving_second_fresh] |}
  /\ console w =
     [(Watcher, Print "New file detected: index2.html. Reloading...");
      (Worker 0, SuperGET (Some "index2.html"))].
Proof. repeat split. Qed.

Lemma run_schedule_snoc watcher_os handler_os sched t w :
  run_schedule watcher_os handler_os (sched ++ [t]) w
  = schedule_step watcher_os handler_os
      (run_schedule watcher_os handler_os sched w) t.
Proof. unfold run_schedule. now rewrite fold_left_app. Qed.

(** The watcher alone, up to its first assignment: four statements. *)
Lemma watcher_alone_to_line_80 os handler_os cls listing new_file paths :
  listdir os = Ok listing ->
  find_highest_version_file listing = Some new_file ->
  target_file cls <> Some new_file ->
  run_schedule os handler_os (replicate 4 Watcher) (start cls paths)
  = {| shared := cls; lock := Some Watcher; watcher := W80 (Some new_file);
       workers := arrival <$> paths;
       console := [(Watcher, Print ("New file detected: " +:+ new_file
                                    +:+ ". Reloading..."))] |}.
Proof.
  intros Hls Hsel Hne.
  pose proof (switch_test_true (Some new_file) cls new_file eq_refl
                (selected_truthy _ _ Hsel) Hne) as Htest.
  change (replicate 4 Watcher) with ([Watcher] ++ [Watcher] ++ [Watcher] ++ [Watcher]).
  rewrite !app_assoc, !run_schedule_snoc.
  unfold run_schedule, start. cbn [fold_left].
  unfold schedule_step at 4. unfold watcher_step. cbn [watcher].
  rewrite Hls, Hsel. cbn [goto shared lock watcher workers console].
  unfold schedule_step at 3. unfold watcher_step.
  cbn [goto set_lock shared lock watcher workers console].
  unfold schedule_step at 2. unfold watcher_step.
  cbn [goto set_lock shared lock watcher workers console].
  rewrite Htest.
  unfold schedule_step. unfold watcher_step.
  cbn [goto set_lock say shared lock watcher workers console fmt app].
  reflexivity.
Qed.

(** C3 (as the code has it).  A turn in which the selector returns a name
    other than the stored one, whatever the two numbers are, and in which
    the new file's time can be read, replaces both fields, the time by the
    new file's time on disk, and prints the reload line.  Line by line: the
    watcher holds the lock when it comes to the first assignment, it still
    holds it between the two assignments, where the name is new and the
    time is old, and after the second; then it gives the lock back.  Among
    requests in flight, in any interleaving, the watcher is between lines
    78 and 89 only while it holds the lock, and whenever it does not hold
    it the two fields are both the old ones or both the new ones. *)
Theorem switch_replaces_both os handler_os cls listing new_file t :
  listdir os = Ok listing ->
  find_highest_version_file listing = Some new_file ->
  target_file cls <> Some new_file ->
  getmtime os new_file = Ok t ->
  let new := {| target_file := Some new_file; current_file_mtime := t |} in
  let line := Print ("New file detected: " +:+ new_file +:+ ". Reloading...") in
  check_once os cls = (Ok tt, new, [line])
  /\ (forall paths,
        let alone n :=
          run_schedule os handler_os (replicate n Watcher) (start cls paths) in
        (shared (alone 4%nat) = cls /\ lock (alone 4%nat) = Some Watcher)
        /\ (shared (alone 5%nat)
            = {| target_file := Some new_file;
                 current_file_mtime := current_file_mtime cls |}
            /\ lock (alone 5%nat) = Some Watcher)
        /\ (shared (alone 6%nat) = new /\ lock (alone 6%nat) = Some Watcher)
        /\ alone 7%nat
           = {| shared := new; lock := None; watcher := W72;
                workers := arrival <$> paths;
                console := [(Watcher, line)] |})
  /\ forall paths w,
       rtc (step os handler_os) (start cls paths) w ->
       (holds_lock (watcher w) = true -> lock w = Some Watcher)
       /\ (lock w <> Some Watcher -> shared w = cls \/ shared w = new).
Proof.
  intros Hls Hsel Hne Hmt new line.
  pose proof (check_once_switch os cls listing new_file t Hls Hsel Hne Hmt)
    as Hrun.
  split; [exact Hrun|]. split.
  - intros paths alone.
    pose proof (watcher_alone_to_line_80 os handler_os cls listing new_file
                  paths Hls Hsel Hne) as H4.
    assert (H5 : alone 5%nat
                 = {| shared := {| target_file := Some new_file;
                                   current_file_mtime := current_file_mtime cls |};
                      lock := Some Watcher; watcher := W81 (Some new_file);
                      workers := arrival <$> paths;
                      console := [(Watcher, line)] |}).
    { unfold alone. change (replicate 5 Watcher) with (replicate 4 Watcher ++ [Watcher]).
      rewrite run_schedule_snoc, H4. reflexivity. }
    assert (H6 : alone 6%nat
                 = {| shared := new; lock := Some Watcher; watcher := W89;
                      workers := arrival <$> paths;
                      console := [(Watcher, line)] |}).
    { unfold alone. change (replicate 6 Watcher) with (replicate 5 Watcher ++ [Watcher]).
      rewrite run_schedule_snoc. fold (alone 5%nat). rewrite H5.
      unfold schedule_step, watcher_step. cbn [watcher]. now rewrite Hmt. }
    assert (H7 : alone 7%nat
                 = {| shared := new; lock := None; watcher := W72;
                      workers := arrival <$> paths;
                      console := [(Watcher, line)] |}).
    { unfold alone. change (replicate 7 Watcher) with (replicate 6 Watcher ++ [Watcher]).
      rewrite run_schedule_snoc. fold (alone 6%nat). rewrite H6. reflexivity. }
    unfold alone at 1 2. rewrite H4, H5, H6, H7. repeat split.
  - intros paths w Hreach.
    destruct (coordinated_reachable _ _ _ _ _
                (coordinated_start os cls paths) Hreach)
      as [Hat Hwl _ _].
    split; [apply Hwl|]. intros Hfree.
    destruct (holds_lock (watcher w)) eqn:Hh.
    + destruct Hfree. now apply Hwl.
    + destruct (settled_outside _ _ _ Hat Hh) as [->|(r & out & Hs)];
        [now left|].
      right. rewrite Hrun in Hs. now injection Hs as _ <- _.
Qed.

Lemma switch_replaces_both_witness :
  let line := Print ("New file detected: " +:+ "index2.html" +:+ ". Reloading...") in
  check_once two_builds serving_first = (Ok tt, serving_second_fresh, [line])
  /\ (forall paths,
        let alone n :=
          run_schedule two_builds (fun _ => two_builds) (replicate n Watcher)
            (start serving_first paths) in
        (shared (alone 4%nat) = serving_first
         /\ lock (alone 4%nat) = Some Watcher)
        /\ (shared (alone 5%nat)
            = {| target_file := Some "index2.html";
                 current_file_mtime := current_file_mtime serving_first |}
            /\ lock (alone 5%nat) = Some Watcher)
        /\ (shared (alone 6%nat) = serving_second_fresh
            /\ lock (alone 6%nat) = Some Watcher)
        /\ alone 7%nat
           = {| shared := serving_second_fresh; lock := None; watcher := W72;
                workers := arrival <$> paths;
                console := [(Watcher, line)] |})
  /\ forall paths w,
       rtc (step two_builds (fun _ => two_builds)) (start serving_first paths) w ->
       (holds_lock (watcher w) = true -> lock w = Some Watcher)
       /\ (lock w <> Some Watcher ->
           shared w = serving_first \/ shared w = serving_second_fresh).
Proof.
  apply (switch_replaces_both two_builds (fun _ => two_builds) serving_first
           ["index1.html"; "index2.html"; "style.css"] "index2.html" 20).
  - reflexivity.
  - reflexivity.
  - discriminate.
  - reflexivity.
Defined.

(** C3 (where the claim fails).  The new build is listed and cannot be
    looked at a moment later.  The selector returns a name other than the
    stored one, the name is replaced, [os.path.getmtime] raises, and the
    turn is over: the stored name is the new file's, the stored time is
    still the old file's, and the lock is free.  A request that comes
    next reads that pair. *)
Lemma failed_switch_leaves_a_mixed_pair :
  let mixed := {| target_file := Some "index2.html"; current_file_mtime := 10 |} in
  let w := run_schedule gone_after_listing (fun _ => two_builds)
             switch_then_serve (start serving_first ["/"]) in
  listdir gone_after_listing = Ok ["index1.html"; "index2.html"; "style.css"]
  /\ find_highest_version_file ["index1.html"; "index2.html"; "style.css"]
     = Some "index2.html"
  /\ serving_first
     = {| target_file := Some "index1.html"; current_file_mtime := 10 |}
  /\ check_once gone_after_listing serving_first
     = (Raise OSError, mixed,
        [Print "New file detected: index2.html. Reloading..."])
  /\ shared w = mixed
  /\ lock w = None
  /\ watcher w = WRaised OSError
  /\ workers w !! 0%nat
     = Some {| at_line := HDone; path_attr := Some "index2.html";
               seen := [mixed; mixed] |}.
Proof. repeat split. Qed.

(** ** Further properties *)

(** X1.  The selector returns the first name, in listing order, among those
    the compiled pattern reads the greatest number off; it returns nothing
    exactly when the pattern reads a number off no name. *)
Theorem selector_returns_first_maximum listing :
  match find_highest_version_file listing with
  | None => forall g, g ∈ listing -> version g = None
  | Some f =>
      exists before after n,
        listing = before ++ f :: after
        /\ version f = Some n
        /\ 0 <= n
        /\ (forall g k, g ∈ before -> version g = Some k -> k < n)
        /\ (forall g k, g ∈ after -> version g = Some k -> k <= n)
  end.
Proof.
  pose proof (find_highest_version_file_first_max listing) as H.
  destruct (find_highest_version_file listing) as [f|]; [|exact H].
  destruct H as (before & after & n & Hl & Hv & Hb & Ha).
  exists before, after, n. pose proof (version_nonneg f n Hv). auto.
Qed.

(** X2.  The names the compiled pattern accepts are the prefix, a non-empty
    run of digits, the suffix, and then nothing or one line feed; the group
    is the run of digits. *)
Theorem compiled_pattern_language filename group1 :
  Regex.pattern_match filename = Some group1 <-> Regex.accepts filename group1.
Proof. apply pattern_match_accepts. Qed.

(** X3.  A turn of the watcher is atomic for the handlers, whatever the
    operating system answers: each time a handler reads the class, the
    attributes are those from before the turn or those [check_once] ends
    with, and so are they whenever the watcher does not hold the lock. *)
Theorem turn_is_atomic watcher_os handler_os before paths w :
  rtc (step watcher_os handler_os) (start before paths) w ->
  (holds_lock (watcher w) = false -> settled watcher_os before (shared w))
  /\ forall i k s,
       workers w !! i = Some k -> s ∈ seen k -> settled watcher_os before s.
Proof.
  intros Hreach.
  destruct (coordinated_reachable _ _ _ _ _
              (coordinated_start watcher_os before paths) Hreach)
    as [Hat _ _ Hseen].
  split; [now apply settled_outside | exact Hseen].
Qed.

Lemma turn_is_atomic_witness :
  let w := run_schedule gone_after_listing (fun _ => two_builds)
             switch_then_serve (start serving_first ["/"]) in
  (holds_lock (watcher w) = false ->
   settled gone_after_listing serving_first (shared w))
  /\ forall i k s,
       workers w !! i = Some k -> s ∈ seen k ->
       settled gone_after_listing serving_first s.
Proof.
  apply (turn_is_atomic gone_after_listing (fun _ => two_builds)
           serving_first ["/"]).
  apply run_schedule_reachable.
Defined.

(** X4.  Line by line or all at once: when the watcher has finished its
    turn, the class attributes are what [check_once] returns, and when an
    exception has ended it, they are what [check_once] raises with. *)
Theorem watcher_lines_refine_check_once watcher_os handler_os before paths w :
  rtc (step watcher_os handler_os) (start before paths) w ->
  match watcher w with
  | W72 => exists out, check_once watcher_os before = (Ok tt, shared w, out)
  | WRaised e => exists out, check_once watcher_os before = (Raise e, shared w, out)
  | _ => True
  end.
Proof.
  intros Hreach.
  destruct (coordinated_reachable _ _ _ _ _
              (coordinated_start watcher_os before paths) Hreach)
    as [Hat _ _ _].
  destruct (watcher w); try exact I; exact Hat.
Qed.

Lemma watcher_lines_refine_check_once_witness :
  match watcher (run_schedule two_builds (fun _ => two_builds)
                   switch_then_serve (start serving_first ["/"])) with
  | W72 =>
      exists out,
        check_once two_builds serving_first
        = (Ok tt,
           shared (run_schedule two_builds (fun _ => two_builds)
                     switch_then_serve (start serving_first ["/"])), out)
  | WRaised e =>
      exists out,
        check_once two_builds serving_first
        = (Raise e,
           shared (run_schedule two_builds (fun _ => two_builds)
                     switch_then_serve (start serving_first ["/"])), out)
  | _ => True
  end.
Proof.
  apply (watcher_lines_refine_check_once two_builds (fun _ => two_builds)
           serving_first ["/"]).
  apply run_schedule_reachable.
Defined.

(** X5.  When the new file cannot be looked at any more (it was listed, and
    was gone or unreadable a moment later), the name has been replaced already
    and the time has not: the exception leaves the stored name with the
    time of the file served before. *)
Theorem failed_switch_keeps_new_name os cls listing new_file e :
  listdir os = Ok listing ->
  find_highest_version_file listing = Some new_file ->
  target_file cls <> Some new_file ->
  getmtime os new_file = Raise e ->
  check_once os cls =
  (Raise e,
   {| target_file := Some new_file;
      current_file_mtime := current_file_mtime cls |},
   [Print ("New file detected: " +:+ new_file +:+ ". Reloading...")]).
Proof.
  intros Hls Hsel Hne Hmt. unfold check_once. run_py.
  rewrite Hls. cbn. rewrite Hsel.
  rewrite (switch_test_true (Some new_file) cls new_file eq_refl
             (selected_truthy _ _ Hsel) Hne).
  cbn. rewrite Hmt. reflexivity.
Qed.

Lemma failed_switch_keeps_new_name_witness :
  check_once gone_after_listing serving_first =
  (Raise OSError,
   {| target_file := Some "index2.html"; current_file_mtime := 10 |},
   [Print ("New file detected: " +:+ "index2.html" +:+ ". Reloading...")]).
Proof.
  apply (failed_switch_keeps_new_name gone_after_listing serving_first
           ["index1.html"; "index2.html"; "style.css"] "index2.html" OSError).
  - reflexivity.
  - reflexivity.
  - discriminate.
  - reflexivity.
Defined.

(** ** The selector, continued *)

Lemma scan_entry_not_accepted acc filename :
  accepted filename = false -> scan_entry acc filename = acc.
Proof.
  destruct acc as [max_num target]. rewrite scan_entry_version.
  unfold accepted. now destruct (version filename).
Qed.

Lemma fold_scan_filter listing acc :
  fold_left scan_entry (List.filter accepted listing) acc
  = fold_left scan_entry listing acc.
Proof.
  revert acc. induction listing as [|x listing IH]; intros acc; simpl;
    [reflexivity|].
  destruct (accepted x) eqn:Hx; simpl.
  - apply IH.
  - rewrite (scan_entry_not_accepted acc x Hx). apply IH.
Qed.

(** X6.  Names the pattern does not accept play no part: the selector
    returns the same on a listing and on what is left of it when every such
    name is taken out, wherever they stood. *)
Theorem selector_ignores_other_names listing :
  find_highest_version_file (List.filter accepted listing)
  = find_highest_version_file listing.
Proof.
  unfold find_highest_version_file. now rewrite fold_scan_filter.
Qed.

(** X7.  A build with a number above all others is the one selected,
    wherever the operating system lists it. *)
Theorem selector_picks_new_highest before after x n :
  version x = Some n ->
  (forall g k, g ∈ before ++ after -> version g = Some k -> k < n) ->
  find_highest_version_file (before ++ x :: after) = Some x.
Proof.
  intros Hx Hlow. apply (find_highest_version_file_unique _ x n).
  - apply elem_of_app; right. apply elem_of_cons; now left.
  - assumption.
  - intros g k Hg Hk.
    apply elem_of_app in Hg as [Hg|Hg];
      [|apply elem_of_cons in Hg as [->|Hg]].
    + assert (k < n) by (apply (Hlow g k); [apply elem_of_app|]; auto). lia.
    + rewrite Hx in Hk. injection Hk as <-. split; [lia | reflexivity].
    + assert (k < n) by (apply (Hlow g k); [apply elem_of_app|]; auto). lia.
Qed.

Lemma selector_picks_new_highest_witness :
  find_highest_version_file (["index9.html"; "a.txt"] ++ "index10.html" :: ["index2.html"])
  = Some "index10.html".
Proof.
  apply (selector_picks_new_highest ["index9.html"; "a.txt"] ["index2.html"]
           "index10.html" 10).
  - reflexivity.
  - intros g k Hg Hk.
    apply elem_of_cons in Hg as [->|Hg];
      [|apply elem_of_cons in Hg as [->|Hg];
        [|apply list_elem_of_singleton in Hg as ->]];
      vm_compute in Hk; try discriminate; injection Hk as <-; lia.
Defined.

Lemma append_empty_r s : s +:+ EmptyString = s.
Proof.
  induction s as [|c s IH]; [reflexivity|].
  rewrite append_String. now rewrite IH.
Qed.

(** A name of the exact form is accepted, with its digits as the group. *)
Lemma pattern_match_exact digits :
  digits <> EmptyString ->
  Regex.all_digits digits ->
  Regex.pattern_match (FILE_PREFIX +:+ digits +:+ FILE_SUFFIX) = Some digits.
Proof.
  intros Hne Hd. apply pattern_match_accepts. exists EmptyString.
  rewrite append_empty_r. auto.
Qed.



(** ** Decimal numerals *)

Lemma pretty_N_char_digit d :
  (d < 10)%N ->
  Regex.is_digit (pretty_N_char d) = true
  /\ digit_value (pretty_N_char d) = Z.of_N d.
Proof.
  intros Hd.
  assert (d = 0 \/ d = 1 \/ d = 2 \/ d = 3 \/ d = 4 \/ d = 5 \/ d = 6
          \/ d = 7 \/ d = 8 \/ d = 9)%N as Hcases by lia.
  repeat destruct Hcases as [->|Hcases]; try subst d; split; reflexivity.
Qed.

Lemma pretty_N_go_digits x s :
  Regex.all_digits s -> Regex.all_digits (pretty_N_go x s).
Proof.
  revert s. induction (N.lt_wf_0 x) as [x _ IH]; intros s Hs.
  destruct (decide (x = 0%N)) as [->|Hx]; [now rewrite pretty_N_go_0|].
  rewrite pretty_N_go_step by lia. apply IH.
  - apply N.div_lt; lia.
  - split; [|assumption].
    apply pretty_N_char_digit. apply N.mod_lt. discriminate.
Qed.

Lemma pretty_N_go_nonempty x s :
  s <> EmptyString -> pretty_N_go x s <> EmptyString.
Proof.
  revert s. induction (N.lt_wf_0 x) as [x _ IH]; intros s Hs.
  destruct (decide (x = 0%N)) as [->|Hx]; [now rewrite pretty_N_go_0|].
  rewrite pretty_N_go_step by lia. apply IH; [apply N.div_lt; lia|discriminate].
Qed.

Lemma int_digits_pretty_N_go x s :
  int_digits 0 (pretty_N_go x s) = int_digits (Z.of_N x) s.
Proof.
  revert s. induction (N.lt_wf_0 x) as [x _ IH]; intros s.
  destruct (decide (x = 0%N)) as [->|Hx]; [now rewrite pretty_N_go_0|].
  rewrite pretty_N_go_step by lia. rewrite IH by (apply N.div_lt; lia).
  destruct (pretty_N_char_digit (x `mod` 10)) as [Hc Hv];
    [apply N.mod_lt; discriminate|].
  simpl. rewrite Hc, Hv. f_equal.
  rewrite <- N2Z.inj_mul with (n := 10%N), <- N2Z.inj_add. f_equal.
  symmetry. apply N.div_mod. discriminate.
Qed.

Lemma pretty_N_numeral (n : N) :
  pretty n <> EmptyString
  /\ Regex.all_digits (pretty n)
  /\ py_int (pretty n) = Some (Z.of_N n).
Proof.
  unfold pretty, pretty_N. destruct (decide (n = 0%N)) as [->|Hn].
  - repeat split. discriminate.
  - assert (Hne : pretty_N_go n EmptyString <> EmptyString).
    { rewrite pretty_N_go_step by lia. apply pretty_N_go_nonempty. discriminate. }
    split; [assumption|]. split; [now apply pretty_N_go_digits|].
    unfold py_int. destruct (pretty_N_go n EmptyString) eqn:Hp; [contradiction|].
    rewrite <- Hp. apply int_digits_pretty_N_go.
Qed.

Lemma version_build_name n : version (build_name n) = Some (Z.of_N n).
Proof.
  destruct (pretty_N_numeral n) as (Hne & Hd & Hv).
  unfold version, build_name. now rewrite (pattern_match_exact _ Hne Hd).
Qed.

(** X9.  Among builds named by the decimal numerals of their numbers, in
    any order and with whatever other names the pattern refuses in
    between, the selector returns the build with the greatest number: the
    name of [n] is read back as [n]. *)
Theorem selector_returns_greatest_build (numbers : list N) (m : N) others :
  m ∈ numbers ->
  (forall k, k ∈ numbers -> (k <= m)%N) ->
  (forall g, g ∈ others -> accepted g = false) ->
  forall listing,
    listing ≡ₚ (build_name <$> numbers) ++ others ->
    version (build_name m) = Some (Z.of_N m)
    /\ find_highest_version_file listing = Some (build_name m).
Proof.
  intros Hm Hmax Hothers listing Hperm.
  split; [apply version_build_name|].
  apply (find_highest_version_file_unique _ _ (Z.of_N m)).
  - rewrite Hperm. apply elem_of_app; left. now apply list_elem_of_fmap_2.
  - apply version_build_name.
  - intros g k Hg Hk. rewrite Hperm in Hg.
    apply elem_of_app in Hg as [Hg|Hg].
    + apply list_elem_of_fmap in Hg as (j & -> & Hj).
      rewrite version_build_name in Hk. injection Hk as <-.
      specialize (Hmax j Hj). split; [lia|].
      intros Heq. f_equal. lia.
    + specialize (Hothers g Hg). unfold accepted in Hothers.
      rewrite Hk in Hothers. discriminate.
Qed.

Lemma selector_returns_greatest_build_witness :
  version (build_name 10) = Some 10
  /\ find_highest_version_file
       ["index9.html"; "style.css"; "index10.html"; "index2.html"]
     = Some (build_name 10).
Proof.
  apply (selector_returns_greatest_build [9; 10; 2]%N 10%N ["style.css"]).
  - apply elem_of_cons; right. apply elem_of_cons; now left.
  - intros k Hk.
    apply elem_of_cons in Hk as [->|Hk];
      [|apply elem_of_cons in Hk as [->|Hk];
        [|apply list_elem_of_singleton in Hk as ->]]; lia.
  - intros g Hg. apply list_elem_of_singleton in Hg as ->. reflexivity.
  - change (["index9.html"; "style.css"; "index10.html"; "index2.html"]
            ≡ₚ ["index9.html"; "index10.html"; "index2.html"; "style.css"]).
    apply perm_skip. symmetry.
    apply (Permutation_app_comm ["index10.html"; "index2.html"] ["style.css"]).
Defined.

(** ** The watcher, continued *)

Lemma selected_accepted listing f :
  find_highest_version_file listing = Some f ->
  f ∈ listing /\ accepted f = true.
Proof.
  intros Hsel. pose proof (find_highest_version_file_first_max listing) as H.
  rewrite Hsel in H. destruct H as (before & after & n & -> & Hv & _).
  split.
  - apply elem_of_app; right. apply elem_of_cons; now left.
  - unfold accepted. now rewrite Hv.
Qed.

Lemma switch_test_name new_file cls :
  switch_test new_file cls = true ->
  exists f, new_file = Some f /\ target_file cls <> Some f.
Proof.
  unfold switch_test. destruct new_file as [f|]; [|discriminate].
  rewrite andb_true_iff, negb_true_iff. intros [_ Hne].
  apply bool_decide_eq_false in Hne. exists f. split; [reflexivity|congruence].
Qed.

(** Every way a turn of the watcher can go. *)
Lemma check_once_cases os cls :
  (exists e, listdir os = Raise e /\ check_once os cls = (Raise e, cls, []))
  \/ exists listing,
       listdir os = Ok listing
       /\ let new_file := find_highest_version_file listing in
          (exists f,
             new_file = Some f /\ target_file cls <> Some f
             /\ let line := Print ("New file detected: " +:+ f +:+ ". Reloading...") in
                let named := {| target_file := Some f;
                                current_file_mtime := current_file_mtime cls |} in
                (exists t, getmtime os f = Ok t
                           /\ check_once os cls =
                              (Ok tt, {| target_file := Some f;
                                         current_file_mtime := t |}, [line]))
                \/ (exists e, getmtime os f = Raise e
                              /\ check_once os cls = (Raise e, named, [line])))
          \/ (switch_test new_file cls = false
              /\ ((target_file cls = None
                   /\ check_once os cls = (Raise TypeError, cls, []))
                  \/ exists g,
                       target_file cls = Some g
                       /\ ((path_exists os g = false
                            /\ check_once os cls = (Ok tt, cls, []))
                           \/ (path_exists os g = true
                               /\ ((exists e, getmtime os g = Raise e
                                    /\ check_once os cls = (Raise e, cls, []))
                                   \/ (getmtime os g = Ok (current_file_mtime cls)
                                       /\ check_once os cls = (Ok tt, cls, []))
                                   \/ (exists t,
                                         getmtime os g = Ok t
                                         /\ t <> current_file_mtime cls
                                         /\ check_once os cls =
                                            (Ok tt,
                                             {| target_file := Some g;
                                                current_file_mtime := t |},
                                             [Print ("File " +:+ g
                                                     +:+ " has been modified. Reloading...")]))))))).
Proof.
  unfold check_once. run_py.
  destruct (listdir os) as [listing|e] eqn:Hls; cbn; [right|left; eauto].
  exists listing. split; [reflexivity|]. cbv zeta.
  destruct (switch_test (find_highest_version_file listing) cls) eqn:Htest.
  - left. destruct (switch_test_name _ _ Htest) as (f & Hf & Hne). rewrite Hf.
    exists f. split; [reflexivity|]. split; [assumption|]. cbn.
    destruct (getmtime os f) as [t|e] eqn:Hmt; cbn; [left|right]; eauto.
  - right. split; [reflexivity|].
    destruct (target_file cls) as [g|] eqn:Htf; cbn; [right|left; auto].
    exists g. split; [reflexivity|].
    destruct (path_exists os g) eqn:Hex; cbn; [right|left; auto].
    split; [reflexivity|].
    destruct (getmtime os g) as [t|e] eqn:Hmt; cbn; [right|left; eauto].
    destruct (Z.eqb_spec t (current_file_mtime cls)) as [->|Hne]; cbn.
    + left. auto.
    + right. exists t. rewrite Htf. auto.
Qed.

Ltac tick_cases os cls :=
  destruct (check_once_cases os cls)
    as [(?e & ?Hls & ?Hrun)
       |(?listing & ?Hls
         & [(?f & ?Hsel & ?Hne
             & [(?t & ?Hmt & ?Hrun)|(?e & ?Hmt & ?Hrun)])
           |(?Htest
             & [(?Htf & ?Hrun)
               |(?g & ?Htf
                 & [(?Hex & ?Hrun)
                   |(?Hex
                     & [(?e & ?Hmt & ?Hrun)
                       |[(?Hmt & ?Hrun)
                        |(?t & ?Hmt & ?Hneq & ?Hrun)]])])])])];
  cbv zeta in *.

(** X10.  A reload is announced once.  When a turn of the watcher has
    completed, a second turn that gets the same answers from the operating
    system changes nothing and prints nothing. *)
Theorem tick_announces_once os cls cls' out :
  check_once os cls = (Ok tt, cls', out) ->
  check_once os cls' = (Ok tt, cls', []).
Proof.
  intros Hfirst.
  tick_cases os cls; rewrite Hrun in Hfirst; try discriminate;
    injection Hfirst as <- <-; try assumption.
  - (* switched to [f] at time [t] *)
    unfold check_once. run_py. rewrite Hls. cbn. rewrite Hsel.
    rewrite switch_test_same by reflexivity. cbn.
    destruct (path_exists os f); cbn; [|reflexivity].
    rewrite Hmt. cbn. now rewrite Z.eqb_refl.
  - (* refreshed the time of [g] *)
    unfold check_once. run_py. rewrite Hls. cbn.
    assert (Htest' : switch_test (find_highest_version_file listing)
                       {| target_file := Some g; current_file_mtime := t |}
                     = false).
    { rewrite <- Htest. unfold switch_test. now rewrite Htf. }
    rewrite Htest'. cbn. rewrite Hex. cbn. rewrite Hmt. cbn.
    now rewrite Z.eqb_refl.
Qed.

Lemma tick_announces_once_witness :
  check_once two_builds serving_second_fresh = (Ok tt, serving_second_fresh, []).
Proof.
  apply (tick_announces_once two_builds serving_first serving_second_fresh
           [Print "New file detected: index2.html. Reloading..."]).
  reflexivity.
Defined.

(** X11.  A turn of the watcher prints at most one line, and it prints one
    exactly when it changes a class attribute, also when it ends with an
    exception. *)
Theorem tick_prints_iff_it_changes os cls :
  match check_once os cls with
  | (_, cls', out) => (length out <= 1)%nat /\ (out = [] <-> cls' = cls)
  end.
Proof.
  tick_cases os cls; rewrite Hrun; simpl; (split; [lia|]);
    try (split; reflexivity); split; try discriminate.
  - intros Heq. rewrite <- Heq in Hne. now destruct Hne.
  - intros Heq. rewrite <- Heq in Hne. now destruct Hne.
  - intros Heq. rewrite <- Heq in Hneq. now destruct Hneq.
Qed.

Lemma check_once_target os cls f r cls' out :
  target_file cls = Some f ->
  check_once os cls = (r, cls', out) ->
  (target_file cls' = Some f
   \/ exists listing f',
        listdir os = Ok listing /\ f' ∈ listing /\ accepted f' = true
        /\ target_file cls' = Some f')
  /\ forall e, r = Raise e ->
       listdir os = Raise e \/ exists g, getmtime os g = Raise e.
Proof.
  intros Hf Hfirst.
  tick_cases os cls; rewrite Hrun in Hfirst; injection Hfirst as <- <- <-;
    try congruence;
    (split; [|intros ? [= <-]; eauto; discriminate]); auto.
  - right. destruct (selected_accepted _ _ Hsel). eauto 10.
  - right. destruct (selected_accepted _ _ Hsel). eauto 10.
  - left. simpl. congruence.
Qed.

(** X12.  Once a file is being served, the watcher always has one: through
    any number of turns the stored name stays a name, the one it started
    with or a name the pattern accepted in a listing, and the only
    exceptions that can end the loop are those [os.listdir] and
    [os.path.getmtime] raise.  In particular [os.path.exists] is never
    handed [None]. *)
Theorem watcher_keeps_a_target ticks cls f :
  target_file cls = Some f ->
  match check_for_updates ticks cls with
  | (r, cls', _) =>
      (target_file cls' = Some f
       \/ exists os listing f',
            os ∈ ticks /\ listdir os = Ok listing /\ f' ∈ listing
            /\ accepted f' = true /\ target_file cls' = Some f')
      /\ forall e, r = Raise e ->
           exists os, os ∈ ticks
                      /\ (listdir os = Raise e \/ exists g, getmtime os g = Raise e)
  end.
Proof.
  revert cls f. induction ticks as [|os ticks IH]; intros cls f Hf.
  - simpl. split; [now left | discriminate].
  - rewrite check_for_updates_cons.
    destruct (check_once os cls) as [[r cls1] out1] eqn:Hone.
    destruct (check_once_target os cls f r cls1 out1 Hf Hone) as [Htarget Hraise].
    assert (Hhere : forall cls2,
              (target_file cls2 = Some f
               \/ exists listing f',
                    listdir os = Ok listing /\ f' ∈ listing
                    /\ accepted f' = true /\ target_file cls2 = Some f') ->
              target_file cls2 = Some f
              \/ exists os' listing f',
                   os' ∈ os :: ticks /\ listdir os' = Ok listing /\ f' ∈ listing
                   /\ accepted f' = true /\ target_file cls2 = Some f').
    { intros cls2 [H|(listing & f' & H)]; [now left|right].
      exists os, listing, f'. split; [apply elem_of_cons; now left | assumption]. }
    destruct r as [[]|e].
    + assert (exists f1, target_file cls1 = Some f1) as [f1 Hf1].
      { destruct Htarget as [H|(? & f' & _ & _ & _ & H)]; eauto. }
      specialize (IH cls1 f1 Hf1).
      destruct (check_for_updates ticks cls1) as [[r2 cls2] out2].
      destruct IH as [IHt IHr]. split.
      * destruct IHt as [H2|(os' & listing & f' & Hin & H2)].
        -- destruct Htarget as [H1|(listing & f' & Hl & Hin' & Ha & H1)].
           ++ left. congruence.
           ++ right. exists os, listing, f'.
              split; [apply elem_of_cons; now left|].
              repeat split; try assumption. congruence.
        -- right. exists os', listing, f'.
           split; [apply elem_of_cons; now right | assumption].
      * intros e He. destruct (IHr e He) as (os' & Hin & H).
        exists os'. split; [apply elem_of_cons; now right | assumption].
    + split; [now apply Hhere|].
      intros e' [= <-]. exists os. split; [apply elem_of_cons; now left|].
      now apply Hraise.
Qed.

Lemma watcher_keeps_a_target_witness :
  match check_for_updates [no_builds; two_builds; gone_after_listing]
          serving_first with
  | (r, cls', _) =>
      (target_file cls' = Some "index1.html"
       \/ exists os listing f',
            os ∈ [no_builds; two_builds; gone_after_listing]
            /\ listdir os = Ok listing /\ f' ∈ listing
            /\ accepted f' = true /\ target_file cls' = Some f')
      /\ forall e, r = Raise e ->
           exists os, os ∈ [no_builds; two_builds; gone_after_listing]
                      /\ (listdir os = Raise e \/ exists g, getmtime os g = Raise e)
  end.
Proof.
  apply (watcher_keeps_a_target [no_builds; two_builds; gone_after_listing]
           serving_first "index1.html").
  reflexivity.
Defined.

(** ** The process, continued *)

(** What a request gets while a file is being served. *)
Lemma handle_with_target os path cls f :
  target_file cls = Some f ->
  handle os path cls =
  (Ok tt, cls,
   [if bool_decide (path = "/")
    then if path_exists os f then SuperGET (Some f)
         else SendError 404 ("File Not Found: " +:+ f)
    else SuperGET (Some path)]).
Proof.
  intros Hf. unfold handle, do_GET, super_do_GET. run_py.
  destruct (decide (path = "/")) as [->|Hne].
  - rewrite !bool_decide_eq_true_2 by reflexivity. rewrite Hf. cbn.
    destruct (path_exists os f); cbn; [|reflexivity].
    replace {| target_file := target_file cls;
               current_file_mtime := current_file_mtime cls |} with cls
      by now destruct cls.
    now destruct cls.
  - rewrite !bool_decide_eq_false_2 by congruence. cbn. now destruct cls.
Qed.

Lemma process_event_target p ev f :
  target_file (class_attrs p) = Some f ->
  exists f', target_file (class_attrs (fst (process_event p ev))) = Some f'.
Proof.
  intros Hf. destruct ev as [os|path os]; simpl.
  - destruct (watcher_dead p); [eauto|].
    destruct (check_once os (class_attrs p)) as [[r cls'] out] eqn:Hone.
    destruct (check_once_target _ _ _ _ _ _ Hf Hone)
      as [[H|(? & f' & _ & _ & _ & H)] _];
      destruct r; simpl; eauto.
  - rewrite (handle_with_target os path _ f Hf). simpl. eauto.
Qed.

Lemma process_events_target p f evs :
  target_file (class_attrs p) = Some f ->
  exists f', target_file (class_attrs (fst (process_events p evs))) = Some f'.
Proof.
  revert p f. induction evs as [|ev evs IH]; intros p f Hf; simpl; [eauto|].
  destruct (process_event_target p ev f Hf) as [f1 Hf1].
  destruct (process_event p ev) as [p1 o1]. simpl in Hf1.
  destruct (IH p1 f1 Hf1) as [f2 Hf2].
  destruct (process_events p1 evs) as [p2 outs]. eauto.
Qed.

(** X13.  Once a file is being served, every request has its answer,
    whatever the watcher has done before and whatever the disk looks like,
    and [do_GET] raises nothing on the way to it.  With [g] the name that
    is stored when the request comes: a path other than "/" goes to the
    parent class as it came, and "/" goes there with [g] if [g] exists at
    that moment and is answered with a 404 that names [g] if it does
    not. *)
Theorem requests_always_answered p f evs i path os :
  target_file (class_attrs p) = Some f ->
  evs !! i = Some (GET path os) ->
  exists g,
    target_file (class_attrs (fst (process_events p (take i evs)))) = Some g
    /\ snd (process_events p evs) !! i
       = Some (GET path os,
               (Ok tt,
                [if bool_decide (path = "/")
                 then if path_exists os g then SuperGET (Some g)
                      else SendError 404 ("File Not Found: " +:+ g)
                 else SuperGET (Some path)])).
Proof.
  intros Hf Hi.
  destruct (process_events_target p f (take i evs) Hf) as [g Hg].
  exists g. split; [assumption|].
  etrans; [apply (process_events_lookup p evs i _ Hi)|].
  simpl. now rewrite (handle_with_target os path _ g Hg).
Qed.

Lemma requests_always_answered_witness :
  let p := {| class_attrs := serving_first; watcher_dead := None |} in
  let evs := [GET "/" two_builds; Tick two_builds; GET "/style.css" no_builds;
              GET "/" no_builds; Tick unreadable; GET "/" two_builds] in
  exists g,
    target_file (class_attrs (fst (process_events p (take 3 evs)))) = Some g
    /\ snd (process_events p evs) !! 3%nat
       = Some (GET "/" no_builds,
               (Ok tt,
                [if bool_decide ("/" = "/")
                 then if path_exists no_builds g then SuperGET (Some g)
                      else SendError 404 ("File Not Found: " +:+ g)
                 else SuperGET (Some "/")])).
Proof.
  apply (requests_always_answered
           {| class_attrs := serving_first; watcher_dead := None |}
           "index1.html"
           [GET "/" two_builds; Tick two_builds; GET "/style.css" no_builds;
            GET "/" no_builds; Tick unreadable; GET "/" two_builds]
           3%nat "/" no_builds).
  - reflexivity.
  - reflexivity.
Defined.

(** X14.  After the turn that finds a new build, a request for "/" is
    served the new file; the reload line was printed by that turn, and a
    further turn with the same answers prints nothing more. *)
Theorem switch_then_request_serves_new p os os' listing new_file t :
  watcher_dead p = None ->
  listdir os = Ok listing ->
  find_highest_version_file listing = Some new_file ->
  target_file (class_attrs p) <> Some new_file ->
  getmtime os new_file = Ok t ->
  path_exists os' new_file = true ->
  let new := {| target_file := Some new_file; current_file_mtime := t |} in
  process_events p [Tick os; GET "/" os'; Tick os; GET "/" os'] =
  ({| class_attrs := new; watcher_dead := None |},
   [(Tick os,
     (Ok tt, [Print ("New file detected: " +:+ new_file +:+ ". Reloading...")]));
    (GET "/" os', (Ok tt, [SuperGET (Some new_file)]));
    (Tick os, (Ok tt, []));
    (GET "/" os', (Ok tt, [SuperGET (Some new_file)]))]).
Proof.
  intros Halive Hls Hsel Hne Hmt Hex new.
  pose proof (check_once_switch os (class_attrs p) listing new_file t
                Hls Hsel Hne Hmt) as Hfirst.
  assert (Hsecond : check_once os new = (Ok tt, new, [])).
  { unfold check_once. run_py. rewrite Hls. cbn. rewrite Hsel.
    rewrite switch_test_same by reflexivity. cbn.
    destruct (path_exists os new_file); cbn; [|reflexivity].
    rewrite Hmt. cbn. now rewrite Z.eqb_refl. }
  assert (Hget : handle os' "/" new = (Ok tt, new, [SuperGET (Some new_file)])).
  { rewrite (handle_with_target os' "/" new new_file eq_refl).
    rewrite bool_decide_eq_true_2 by reflexivity. now rewrite Hex. }
  subst new. cbn [process_events process_event]. rewrite Halive, Hfirst.
  cbn [class_attrs watcher_dead]. rewrite Hget.
  cbn [class_attrs watcher_dead]. rewrite Hsecond.
  cbn [class_attrs watcher_dead]. rewrite Hget. reflexivity.
Qed.

Lemma switch_then_request_serves_new_witness :
  process_events {| class_attrs := serving_first; watcher_dead := None |}
    [Tick two_builds; GET "/" two_builds; Tick two_builds; GET "/" two_builds] =
  ({| class_attrs := serving_second_fresh; watcher_dead := None |},
   [(Tick two_builds,
     (Ok tt, [Print ("New file detected: " +:+ "index2.html" +:+ ". Reloading...")]));
    (GET "/" two_builds, (Ok tt, [SuperGET (Some "index2.html")]));
    (Tick two_builds, (Ok tt, []));
    (GET "/" two_builds, (Ok tt, [SuperGET (Some "index2.html")]))]).
Proof.
  apply (switch_then_request_serves_new
           {| class_attrs := serving_first; watcher_dead := None |}
           two_builds two_builds ["index1.html"; "index2.html"; "style.css"]
           "index2.html" 20).
  - reflexivity.
  - reflexivity.
  - reflexivity.
  - discriminate.
  - reflexivity.
  - reflexivity.
Defined.

Lemma dead_watcher_fixed p e evs :
  watcher_dead p = Some e -> fst (process_events p evs) = p.
Proof.
  revert p. induction evs as [|ev evs IH]; intros p Hdead; simpl; [reflexivity|].
  assert (Hstep : fst (process_event p ev) = p).
  { destruct ev as [os|path os]; simpl.
    - now rewrite Hdead.
    - pose proof (handle_class os path (class_attrs p)) as H.
      destruct (handle os path (class_attrs p)) as [[r cls] out].
      simpl in *. subst cls. now destruct p. }
  destruct (process_event p ev) as [p1 o1]. simpl in Hstep. subst p1.
  specialize (IH p Hdead).
  destruct (process_events p evs) as [p2 outs]. exact IH.
Qed.

(** X15.  A failed check freezes what is served.  After the turn in which
    an exception left the watcher, no sequence of requests and wake-ups
    changes the class attributes any more, whatever builds appear: they
    stay as the failed turn left them. *)
Theorem failed_check_freezes_the_target p os e cls' out evs :
  watcher_dead p = None ->
  check_once os (class_attrs p) = (Raise e, cls', out) ->
  fst (process_events p (Tick os :: evs))
  = {| class_attrs := cls'; watcher_dead := Some e |}.
Proof.
  intros Halive Hfail. simpl. rewrite Halive, Hfail.
  pose proof (dead_watcher_fixed
                {| class_attrs := cls'; watcher_dead := Some e |} e evs eq_refl)
    as Hfixed.
  destruct (process_events {| class_attrs := cls'; watcher_dead := Some e |} evs)
    as [p2 outs].
  exact Hfixed.
Qed.

Lemma failed_check_freezes_the_target_witness :
  fst (process_events {| class_attrs := serving_first; watcher_dead := None |}
         (Tick unreadable :: [Tick two_builds; GET "/" two_builds]))
  = {| class_attrs := serving_first; watcher_dead := Some OSError |}.
Proof.
  apply (failed_check_freezes_the_target
           {| class_attrs := serving_first; watcher_dead := None |}
           unreadable OSError serving_first []).
  - reflexivity.
  - reflexivity.
Defined.

(** ** The threads, continued *)

Lemma owner_present_step watcher_os handler_os w w' :
  owner_present w ->
  step watcher_os handler_os w w' ->
  owner_present w'.
Proof.
  intros Hown Hstep i Hi. destruct Hstep as [w w' Hs|j w w' Hs].
  - apply watcher_step_frame in Hs as [-> Hmove].
    destruct Hmove as [[Hl _]|[(_ & Hl & _)|(_ & Hl & _)]];
      rewrite Hl in Hi; [now apply Hown | discriminate | discriminate].
  - apply worker_step_frame in Hs as (k & k' & Hk & -> & _ & _ & _ & Hmove).
    apply list_lookup_insert_is_Some.
    destruct Hmove as [[Hl _]|[(_ & Hl & _)|(_ & Hl & _)]]; rewrite Hl in Hi.
    + now apply Hown.
    + injection Hi as ->. eauto.
    + discriminate.
Qed.

Lemma owner_present_reachable watcher_os handler_os before paths w :
  rtc (step watcher_os handler_os) (start before paths) w ->
  owner_present w.
Proof.
  intros Hrun.
  assert (H0 : owner_present (start before paths))
    by (intros i Hi; discriminate Hi).
  induction Hrun as [|w0 w1 w2 Hstep _ IH]; [assumption|].
  apply IH. eapply owner_present_step; eassumption.
Qed.

(** X16.  Mutual exclusion.  At no moment of any interleaving are two
    threads inside their [with] blocks: not the watcher and a handler, not
    two handlers.  And once every thread has finished, the lock is free. *)
Theorem mutual_exclusion watcher_os handler_os before paths w :
  rtc (step watcher_os handler_os) (start before paths) w ->
  (forall i k,
      workers w !! i = Some k -> in_with (at_line k) = true ->
      holds_lock (watcher w) = false)
  /\ (forall i j ki kj,
        workers w !! i = Some ki -> workers w !! j = Some kj ->
        in_with (at_line ki) = true -> in_with (at_line kj) = true ->
        i = j)
  /\ (watcher_done (watcher w) = true ->
      (forall i k, workers w !! i = Some k -> handler_done (at_line k) = true) ->
      lock w = None).
Proof.
  intros Hrun.
  pose proof (owner_present_reachable _ _ _ _ _ Hrun) as Hown.
  destruct (coordinated_reachable _ _ _ _ _
              (coordinated_start watcher_os before paths) Hrun)
    as [_ Hwl Hkl _].
  repeat split.
  - intros i k Hk Hin. apply (Hkl i k Hk) in Hin.
    destruct (holds_lock (watcher w)); [|reflexivity].
    destruct Hwl as [Hwl _]. rewrite Hwl in Hin by reflexivity. discriminate.
  - intros i j ki kj Hi Hj Hini Hinj.
    apply (Hkl i ki Hi) in Hini. apply (Hkl j kj Hj) in Hinj. congruence.
  - intros Hdone Hall.
    destruct (decide (lock w = None)) as [|Hheld]; [assumption|].
    destruct (lock w) as [[|i]|] eqn:Hl; [| |contradiction].
    + assert (Hin : holds_lock (watcher w) = true) by now apply Hwl.
      destruct (watcher w); discriminate.
    + destruct (Hown i Hl) as [k Hk]. specialize (Hall i k Hk).
      assert (Hin : in_with (at_line k) = true) by now apply (Hkl i k Hk).
      destruct (at_line k); discriminate.
Qed.

Lemma mutual_exclusion_witness :
  let w := run_schedule two_builds (fun _ => two_builds) switch_then_serve
             (start serving_first ["/"; "/"]) in
  (forall i k,
      workers w !! i = Some k -> in_with (at_line k) = true ->
      holds_lock (watcher w) = false)
  /\ (forall i j ki kj,
        workers w !! i = Some ki -> workers w !! j = Some kj ->
        in_with (at_line ki) = true -> in_with (at_line kj) = true ->
        i = j)
  /\ (watcher_done (watcher w) = true ->
      (forall i k, workers w !! i = Some k -> handler_done (at_line k) = true) ->
      lock w = None).
Proof.
  apply (mutual_exclusion two_builds (fun _ => two_builds) serving_first
           ["/"; "/"]).
  apply run_schedule_reachable.
Defined.

Lemma watcher_can_step os w :
  watcher_done (watcher w) = false ->
  lock w = None \/ holds_lock (watcher w) = true ->
  is_Some (watcher_step os w).
Proof.
  unfold watcher_step. intros Hdone Hfree.
  destruct (watcher w) eqn:Hl; try discriminate;
    repeat match goal with
      | |- context [match ?x with _ => _ end] => destruct x eqn:?
      end;
    try (eexists; reflexivity).
  destruct Hfree as [Hfree|Hfree]; [congruence | discriminate].
Qed.

Lemma worker_can_step os i w k :
  workers w !! i = Some k ->
  handler_done (at_line k) = false ->
  lock w = None \/ in_with (at_line k) = true ->
  is_Some (worker_step os i w).
Proof.
  unfold worker_step. intros Hk Hdone Hfree. rewrite Hk.
  destruct (at_line k) eqn:Hl; try discriminate;
    repeat match goal with
      | |- context [match ?x with _ => _ end] => destruct x eqn:?
      end;
    try (eexists; reflexivity).
  destruct Hfree as [Hfree|Hfree]; [congruence | discriminate].
Qed.

(** X17.  No deadlock.  As long as some thread has a statement left, some
    thread can move: whoever holds the lock is never the one that waits. *)
Theorem no_deadlock watcher_os handler_os before paths w :
  rtc (step watcher_os handler_os) (start before paths) w ->
  (watcher_done (watcher w) = false
   \/ exists i k, workers w !! i = Some k /\ handler_done (at_line k) = false) ->
  exists w', step watcher_os handler_os w w'.
Proof.
  intros Hrun Hleft.
  pose proof (owner_present_reachable _ _ _ _ _ Hrun) as Hown.
  destruct (coordinated_reachable _ _ _ _ _
              (coordinated_start watcher_os before paths) Hrun)
    as [_ Hwl Hkl _].
  destruct (lock w) as [[|i]|] eqn:Hl.
  - assert (Hin : holds_lock (watcher w) = true) by now apply Hwl.
    destruct (watcher_can_step watcher_os w) as [w' Hw'].
    + destruct (watcher w); (reflexivity || discriminate).
    + now right.
    + exists w'. now apply step_watcher.
  - destruct (Hown i Hl) as [k Hk].
    assert (Hin : in_with (at_line k) = true) by now apply (Hkl i k Hk).
    destruct (worker_can_step (handler_os i) i w k Hk) as [w' Hw'].
    + destruct (at_line k); (reflexivity || discriminate).
    + now right.
    + exists w'. now apply (step_worker _ _ i).
  - destruct Hleft as [Hw|(i & k & Hk & Hd)].
    + destruct (watcher_can_step watcher_os w Hw) as [w' Hw']; [now left|].
      exists w'. now apply step_watcher.
    + destruct (worker_can_step (handler_os i) i w k Hk Hd) as [w' Hw'];
        [now left|].
      exists w'. now apply (step_worker _ _ i).
Qed.

Lemma no_deadlock_witness :
  exists w',
    step two_builds (fun _ => two_builds)
      (run_schedule two_builds (fun _ => two_builds)
         [Watcher; Watcher; Worker 0; Watcher; Watcher]
         (start serving_first ["/"])) w'.
Proof.
  apply (no_deadlock two_builds (fun _ => two_builds) serving_first ["/"]).
  - apply run_schedule_reachable.
  - left. reflexivity.
Defined.

Lemma sum_list_with_insert {A} (f : A -> nat) (l : list A) i x y :
  l !! i = Some x ->
  (sum_list_with f (<[i:=y]> l) + f x = sum_list_with f l + f y)%nat.
Proof.
  revert i. induction l as [|a l IH]; intros i Hi; [discriminate|].
  destruct i as [|i]; simpl in *.
  - injection Hi as ->. lia.
  - specialize (IH i Hi). lia.
Qed.

Lemma watcher_step_counts os w w' :
  watcher_step os w = Some w' ->
  workers w' = workers w
  /\ (watcher_steps_left (watcher w') < watcher_steps_left (watcher w))%nat.
Proof.
  unfold watcher_step.
  destruct (watcher w) eqn:Hl; try discriminate;
    repeat match goal with
      | |- context [match ?x with _ => _ end] => destruct x eqn:?
      end;
    try discriminate; intros [= <-]; simpl; split; (reflexivity || lia).
Qed.

Lemma worker_step_counts os i w w' :
  worker_step os i w = Some w' ->
  exists k k',
    workers w !! i = Some k
    /\ workers w' = <[i := k']> (workers w)
    /\ watcher w' = watcher w
    /\ (handler_steps_left (at_line k') < handler_steps_left (at_line k))%nat.
Proof.
  unfold worker_step.
  destruct (workers w !! i) as [k|] eqn:Hk; [|discriminate].
  destruct (at_line k) eqn:Hl; try discriminate;
    repeat match goal with
      | |- context [match ?x with _ => _ end] => destruct x eqn:?
      end;
    try discriminate; intros [= <-]; eexists k, _;
    (split; [reflexivity|]); (split; [reflexivity|]);
    (split; [reflexivity|]); simpl; rewrite ?Hl; simpl; lia.
Qed.

Lemma step_counts_down watcher_os handler_os w w' :
  step watcher_os handler_os w w' -> (steps_left w' < steps_left w)%nat.
Proof.
  unfold steps_left. intros [w0 w1 Hs|i w0 w1 Hs].
  - apply watcher_step_counts in Hs as [-> Hlt]. lia.
  - apply worker_step_counts in Hs as (k & k' & Hk & -> & -> & Hlt).
    pose proof (sum_list_with_insert
                  (fun k => handler_steps_left (at_line k))
                  (workers w0) i k k' Hk) as Hsum.
    simpl in Hsum. lia.
Qed.

Lemma steps_left_start before paths :
  steps_left (start before paths) = (9 + 6 * length paths)%nat.
Proof.
  assert (Hsum : sum_list_with (fun k => handler_steps_left (at_line k))
                   (arrival <$> paths) = (6 * length paths)%nat).
  { induction paths as [|p paths IH]; [reflexivity|].
    rewrite fmap_cons. cbn [sum_list_with length]. rewrite IH.
    cbn [arrival at_line handler_steps_left]. lia. }
  unfold steps_left, start. cbn [watcher workers watcher_steps_left].
  rewrite Hsum. lia.
Qed.

(** X18.  The turn and the requests come to an end.  Every statement run
    by any thread takes one off the count of statements left, so an
    interleaving of one turn of the watcher with [N] requests has at most
    [9 + 6 * N] steps, whatever the schedule and the answers of the
    operating system; no thread spins on the lock. *)
Theorem interleavings_are_bounded watcher_os handler_os before paths n w :
  nsteps (step watcher_os handler_os) n (start before paths) w ->
  (n + steps_left w <= 9 + 6 * length paths)%nat.
Proof.
  rewrite <- (steps_left_start before paths).
  generalize (start before paths) as w0. intros w0 Hrun.
  induction Hrun as [w0|n w0 w1 w2 Hstep _ IH]; [simpl; lia|].
  apply step_counts_down in Hstep. lia.
Qed.

Lemma interleavings_are_bounded_witness :
  (2 + steps_left (run_schedule two_builds (fun _ => two_builds)
                     [Watcher; Worker 0] (start serving_first ["/"]))
   <= 9 + 6 * length ["/"])%nat.
Proof.
  apply (interleavings_are_bounded two_builds (fun _ => two_builds)
           serving_first ["/"] 2).
  eapply nsteps_l; [apply step_watcher; reflexivity|].
  eapply nsteps_l; [apply (step_worker _ _ 0); reflexivity|].
  apply nsteps_O.
Defined.

Lemma effects_of_snoc t t' ev console :
  effects_of t (console ++ [(t', ev)])
  = effects_of t console ++ (if bool_decide (t' = t) then [ev] else []).
Proof.
  unfold effects_of. rewrite List.filter_app, fmap_app. simpl.
  destruct (bool_decide (t' = t)); reflexivity.
Qed.

Lemma effects_of_other t t' ev console :
  t' <> t -> effects_of t (console ++ [(t', ev)]) = effects_of t console.
Proof.
  intros Hne. rewrite effects_of_snoc, bool_decide_eq_false_2 by assumption.
  apply app_nil_r.
Qed.

Lemma effects_of_own t ev console :
  effects_of t (console ++ [(t, ev)]) = effects_of t console ++ [ev].
Proof.
  now rewrite effects_of_snoc, bool_decide_eq_true_2.
Qed.

Lemma handle_other_path os path cls :
  path <> "/" -> handle os path cls = (Ok tt, cls, [SuperGET (Some path)]).
Proof.
  intros Hne. unfold handle, do_GET, super_do_GET. run_py.
  rewrite !bool_decide_eq_false_2 by congruence. reflexivity.
Qed.

Lemma handle_no_target os cls :
  target_file cls = None -> handle os "/" cls = (Raise TypeError, cls, []).
Proof.
  intros Hnone. unfold handle, do_GET, super_do_GET. run_py.
  now rewrite Hnone.
Qed.

(** What a step of the watcher leaves alone. *)
Lemma watcher_step_others os w w' :
  watcher_step os w = Some w' ->
  workers w' = workers w
  /\ (forall i, effects_of (Worker i) (console w')
                = effects_of (Worker i) (console w))
  /\ (shared w' = shared w \/ holds_lock (watcher w) = true).
Proof.
  unfold watcher_step.
  destruct (watcher w) eqn:Hl; try discriminate;
    repeat match goal with
      | |- context [match ?x with _ => _ end] => destruct x eqn:?
      end;
    try discriminate; intros [= <-]; simpl;
    (split; [reflexivity|]);
    (split; [intros i; try reflexivity; now apply effects_of_other|]);
    auto.
Qed.

(** What a step of a handler leaves alone. *)
Lemma worker_step_others os i w w' :
  worker_step os i w = Some w' ->
  shared w' = shared w
  /\ (forall j, j <> i ->
        workers w' !! j = workers w !! j
        /\ effects_of (Worker j) (console w')
           = effects_of (Worker j) (console w)).
Proof.
  unfold worker_step.
  destruct (workers w !! i) as [k|] eqn:Hk; [|discriminate].
  destruct (at_line k) eqn:Hl; try discriminate;
    repeat match goal with
      | |- context [match ?x with _ => _ end] => destruct x eqn:?
      end;
    try discriminate; intros [= <-]; simpl;
    (split; [reflexivity|]); intros j Hj;
    (split; [now apply list_lookup_insert_ne|]);
    try reflexivity; apply effects_of_other; congruence.
Qed.

(** A handler's own step keeps it an execution of [handle]. *)
Lemma worker_step_own watcher_os before os i w w' k p s :
  worker_step os i w = Some w' ->
  workers w !! i = Some k ->
  (lock w = None -> settled watcher_os before (shared w)) ->
  settled watcher_os before s ->
  (in_with (at_line k) = true -> s = shared w) ->
  (forall x, x ∈ seen k -> x = s) ->
  handler_at os p s k (effects_of (Worker i) (console w)) ->
  exists k' s',
    workers w' !! i = Some k'
    /\ settled watcher_os before s'
    /\ (in_with (at_line k') = true -> s' = shared w')
    /\ (forall x, x ∈ seen k' -> x = s')
    /\ handler_at os p s' k' (effects_of (Worker i) (console w')).
Proof.
  intros Hs Hk Hfree Hset Hin Hseen Hat.
  assert (Hlen : (i < length (workers w))%nat)
    by (eapply lookup_lt_Some; eassumption).
  assert (Hread : in_with (at_line k) = true ->
            forall x, x ∈ seen k ++ [shared w] -> x = s).
  { intros Hi x Hx. apply elem_of_app in Hx as [Hx|Hx]; [auto|].
    apply list_elem_of_singleton in Hx as ->. symmetry. auto. }
  unfold worker_step in Hs. rewrite Hk in Hs.
  unfold handler_at in Hat.
  destruct (at_line k) eqn:Hl; try discriminate Hs.
  - (* H54 *)
    destruct Hat as (Hp & Hnone & Hsent).
    destruct (bool_decide (path_attr k = Some "/")) eqn:Hroot;
      injection Hs as <-; eexists _, s;
      (split; [now apply list_lookup_insert_eq|]);
      (split; [assumption|]); (split; [discriminate|]);
      (split; [exact Hseen|]); unfold handler_at; simpl.
    + apply bool_decide_eq_true in Hroot. repeat split; congruence.
    + apply bool_decide_eq_false in Hroot. split; [assumption|].
      rewrite Hp. apply handle_other_path. congruence.
  - (* H56 *)
    destruct Hat as (Hp & Hnone & Hsent & Hroot).
    destruct (lock w) eqn:Hlock; [discriminate|]. injection Hs as <-.
    eexists _, (shared w).
    split; [now apply list_lookup_insert_eq|].
    split; [now apply Hfree|]. split; [reflexivity|].
    split; [simpl; rewrite Hnone; intros x Hx; inversion Hx|].
    unfold handler_at. simpl. auto.
  - (* H57 *)
    destruct Hat as (Hp & Hnone & Hsent & Hroot).
    specialize (Hin eq_refl). specialize (Hread eq_refl).
    destruct (target_file (shared w)) as [f|] eqn:Htf;
      [destruct (path_exists os f) eqn:Hex|];
      injection Hs as <-; eexists _, s;
      (split; [now apply list_lookup_insert_eq|]);
      (split; [assumption|]);
      (split; [simpl; intros; assumption || discriminate|]);
      (split; [exact Hread|]); unfold handler_at; simpl.
    + repeat split; try assumption. exists f. rewrite Hin. auto.
    + repeat split; try assumption. exists f. rewrite Hin. auto.
    + rewrite Hsent, Hroot. apply handle_no_target. now rewrite Hin.
  - (* H58 *)
    destruct Hat as (Hroot & Hsent & f & Htf & Hex).
    specialize (Hin eq_refl). specialize (Hread eq_refl).
    injection Hs as <-. eexists _, s.
    split; [now apply list_lookup_insert_eq|].
    split; [assumption|]. split; [simpl; intros; assumption|].
    split; [exact Hread|]. unfold handler_at. simpl.
    repeat split; try assumption. exists f. rewrite <- Hin. auto.
  - (* H60 *)
    destruct Hat as (Hroot & Hsent & f & Htf & Hex).
    specialize (Hin eq_refl). specialize (Hread eq_refl).
    injection Hs as <-. eexists _, s.
    split; [now apply list_lookup_insert_eq|].
    split; [assumption|]. split; [simpl; intros; assumption|].
    split; [exact Hread|]. unfold handler_at. simpl.
    rewrite effects_of_own, Hsent, <- Hin, Htf, Hroot. simpl.
    rewrite (handle_with_target os "/" s f Htf).
    rewrite bool_decide_eq_true_2 by reflexivity. now rewrite Hex.
  - (* H61 *)
    injection Hs as <-. eexists _, s.
    split; [now apply list_lookup_insert_eq|].
    split; [assumption|]. split; [discriminate|].
    split; [exact Hseen|]. unfold handler_at. simpl. exact Hat.
  - (* H62 *)
    destruct Hat as (Hroot & Hsent & f & Htf & Hex & Hpath).
    injection Hs as <-. eexists _, s.
    split; [now apply list_lookup_insert_eq|].
    split; [assumption|]. split; [discriminate|].
    split; [exact Hseen|]. unfold handler_at. simpl.
    split; [assumption|]. rewrite Hpath, Hroot.
    rewrite (handle_with_target os "/" s f Htf).
    rewrite bool_decide_eq_true_2 by reflexivity. now rewrite Hex.
  - (* H64 *)
    destruct Hat as (Hsent & Hrun).
    injection Hs as <-. eexists _, s.
    split; [now apply list_lookup_insert_eq|].
    split; [assumption|]. split; [discriminate|].
    split; [exact Hseen|]. unfold handler_at. simpl.
    now rewrite effects_of_own, Hsent.
Qed.

Lemma linearized_start watcher_os handler_os before paths :
  linearized watcher_os handler_os before paths (start before paths).
Proof.
  intros i k Hk. simpl in Hk.
  apply list_lookup_fmap_Some_1 in Hk as (p & -> & Hp).
  exists p, before. split; [assumption|]. split; [now left|].
  split; [discriminate|]. split; [intros x Hx; inversion Hx|].
  unfold handler_at. simpl. auto.
Qed.

Lemma linearized_step watcher_os handler_os before paths w w' :
  coordinated watcher_os before w ->
  linearized watcher_os handler_os before paths w ->
  step watcher_os handler_os w w' ->
  linearized watcher_os handler_os before paths w'.
Proof.
  intros [Hat Hwl Hkl _] Hlin Hstep. destruct Hstep as [w w' Hs|j w w' Hs].
  - apply watcher_step_others in Hs as (Hws & Heff & Hsh).
    intros i k Hk. rewrite Hws in Hk.
    destruct (Hlin i k Hk) as (p & s & Hp & Hset & Hin & Hseen & Hk_at).
    exists p, s. repeat split; try assumption.
    + intros Hi. rewrite (Hin Hi).
      destruct Hsh as [->|Hheld]; [reflexivity|].
      apply Hwl in Hheld. apply (Hkl i k Hk) in Hi. congruence.
    + now rewrite Heff.
  - intros i k' Hk'. destruct (decide (i = j)) as [->|Hij].
    + destruct (workers w !! j) as [k|] eqn:Hk;
        [|unfold worker_step in Hs; rewrite Hk in Hs; discriminate].
      destruct (Hlin j k Hk) as (p & s & Hp & Hset & Hin & Hseen & Hk_at).
      destruct (worker_step_own watcher_os before (handler_os j) j w w' k p s
                  Hs Hk) as (k1 & s' & Hk1 & Hset' & Hin' & Hseen' & Hat');
        try assumption.
      * intros Hfree. apply settled_outside; [assumption|].
        destruct (holds_lock (watcher w)); [|reflexivity].
        destruct Hwl as [Hwl _]. rewrite Hwl in Hfree by reflexivity.
        discriminate.
      * rewrite Hk1 in Hk'. injection Hk' as <-. exists p, s'. auto.
    + apply worker_step_others in Hs as [Hsh Hother].
      destruct (Hother i Hij) as [Hsame Heff]. rewrite Hsame in Hk'.
      destruct (Hlin i k' Hk') as (p & s & Hp & Hset & Hin & Hseen & Hk_at).
      exists p, s. rewrite Hsh, Heff. auto.
Qed.

Lemma linearized_rtc watcher_os handler_os before paths w0 w :
  coordinated watcher_os before w0 ->
  linearized watcher_os handler_os before paths w0 ->
  rtc (step watcher_os handler_os) w0 w ->
  linearized watcher_os handler_os before paths w.
Proof.
  intros Hco Hlin Hrun.
  induction Hrun as [|w0 w1 w2 Hstep _ IH]; [assumption|].
  apply IH.
  - eapply coordinated_step; eassumption.
  - eapply linearized_step; eassumption.
Qed.

Lemma linearized_reachable watcher_os handler_os before paths w :
  rtc (step watcher_os handler_os) (start before paths) w ->
  linearized watcher_os handler_os before paths w.
Proof.
  apply linearized_rtc; [apply coordinated_start | apply linearized_start].
Qed.

(** X19.  Each request is answered as if it had been handled in one piece.
    In any interleaving with a turn of the watcher, whatever the operating
    system answers, a handler that has finished has sent exactly what
    [do_GET], run without interruption, sends on class attributes that are
    those from before the turn or those after it, and it has ended the same
    way; whenever it read the class in between, it saw those attributes
    and no others. *)
Theorem requests_are_linearizable
  watcher_os handler_os before paths w i k :
  rtc (step watcher_os handler_os) (start before paths) w ->
  workers w !! i = Some k ->
  exists p s,
    paths !! i = Some p
    /\ settled watcher_os before s
    /\ (forall x, x ∈ seen k -> x = s)
    /\ match at_line k with
       | HDone =>
           handle (handler_os i) p s
           = (Ok tt, s, effects_of (Worker i) (console w))
       | HRaised e =>
           handle (handler_os i) p s
           = (Raise e, s, effects_of (Worker i) (console w))
       | _ => True
       end.
Proof.
  intros Hrun Hk.
  destruct (linearized_reachable _ _ _ _ _ Hrun i k Hk)
    as (p & s & Hp & Hset & _ & Hseen & Hat).
  exists p, s. repeat split; try assumption.
  unfold handler_at in Hat. destruct (at_line k); try exact I; exact Hat.
Qed.

Lemma requests_are_linearizable_witness :
  let w := run_schedule two_builds (fun _ => two_builds) switch_then_serve
             (start serving_first ["/"; "/style.css"]) in
  exists p s,
    ["/"; "/style.css"] !! 0%nat = Some p
    /\ settled two_builds serving_first s
    /\ (forall x, x ∈ [serving_second_fresh; serving_second_fresh] -> x = s)
    /\ handle two_builds p s = (Ok tt, s, effects_of (Worker 0) (console w)).
Proof.
  apply (requests_are_linearizable two_builds (fun _ => two_builds)
           serving_first ["/"; "/style.css"]
           (run_schedule two_builds (fun _ => two_builds) switch_then_serve
              (start serving_first ["/"; "/style.css"]))
           0%nat
           {| at_line := HDone; path_attr := Some "index2.html";
              seen := [serving_second_fresh; serving_second_fresh] |}).
  - apply run_schedule_reachable.
  - reflexivity.
Defined.

(** ** The main block, continued *)



